(** * RFID asset tracker: dashboard handlers and the ingestion core

    The repository ships the Svelte front end (Dashboard, ScanEventList,
    AssetDetail, AssetCard, ManualScanForm).  Its handlers are embedded
    below as pure functions over the component state.  The FastAPI back
    end (api/main.py, mock_data.py) is referenced by the README but is not
    part of the sources; the parts of it that the specification describes
    (normalizer, asset state store, status reconciler) are modelled in
    [Module Core] from the specification text and are marked as such. *)

From Stdlib Require Import ZArith Floats.
From stdpp Require Import base option list strings gmap.

Local Open Scope string_scope.

(** ** JavaScript values used by the components *)

Module Js.

(** A JS [number] is an IEEE-754 binary64, which is what the kernel's
    primitive [float] is. *)
Definition number := float.

(** [ToBoolean] on a [string | null] value: [null] (and [undefined]) and
    the empty string are falsy. *)
Definition truthy_string (v : option string) : bool :=
  match v with
  | None => false
  | Some s => negb (String.eqb s "")
  end.

(** [ToBoolean] on a [number | null | undefined] value: absent, [+0], [-0]
    and [NaN] are falsy.  IEEE equality with [0] holds for both zeros. *)
Definition truthy_number (v : option number) : bool :=
  match v with
  | None => false
  | Some f => negb (PrimFloat.eqb f 0%float || PrimFloat.is_nan f)
  end.

(** What [JSON.parse] can produce for a number: JSON has no literal for
    [NaN], so a decoded number is never [NaN] (it may be [-0], or infinite
    on overflow). *)
Definition from_json (v : option number) : bool :=
  match v with
  | None => true
  | Some f => negb (PrimFloat.is_nan f)
  end.

(** The outcome of a call that may throw. *)
Inductive outcome (A : Type) : Type :=
| Returned (a : A)
| Thrown (message : string).
Arguments Returned {A} a.
Arguments Thrown {A} message.

End Js.

(** ** Types shared by the components *)

(** [type Asset] of Dashboard.svelte.  [last_seen] and [last_location] are
    [string | null] in AssetDetail.svelte and arrive as JSON [null] for an
    asset that was never scanned, hence [option]. *)
Module Asset.
Record t : Type := mk {
  id : Z;
  tag_id : string;
  name : string;
  description : string;
  asset_type : string;
  status : string;
  last_seen : option string;
  last_location : option string
}.
End Asset.

(** [type ScanEvent]: the three optional fields are [?:] in the source. *)
Module ScanEvent.
Record t : Type := mk {
  tag_id : string;
  location : string;
  timestamp : string;
  asset_name : option string;
  asset_type : option string;
  rssi : option Js.number
}.
End ScanEvent.

(** ** Dashboard.svelte *)

Module Dashboard.

(** The component state that the handlers read and write.  The objects in
    [assets] come from one [response.json()] call, so they are pairwise
    distinct objects and the in-place update of one element is an update
    at one index of the array. *)
Record State : Type := mkState {
  assets : list Asset.t;
  recentScans : list ScanEvent.t;
  filter : string
}.

(** The reactive block
    [$: if (filter === "all") filteredAssets = [...assets]
        else filteredAssets = assets.filter(a => a.status === filter)]. *)
Definition filteredAssets (filter : string) (assets : list Asset.t)
  : list Asset.t :=
  if decide (filter = "all") then assets
  else base.filter (λ asset, Asset.status asset = filter) assets.

(** The three assignments made to the asset that [find] returned. *)
Definition mark_seen (scanEvent : ScanEvent.t) (asset : Asset.t) : Asset.t :=
  {| Asset.id := Asset.id asset;
     Asset.tag_id := Asset.tag_id asset;
     Asset.name := Asset.name asset;
     Asset.description := Asset.description asset;
     Asset.asset_type := Asset.asset_type asset;
     Asset.status := "active";
     Asset.last_seen := Some (ScanEvent.timestamp scanEvent);
     Asset.last_location := Some (ScanEvent.location scanEvent) |}.

(** [assets.find(a => a.tag_id === scanEvent.tag_id)]: the first match,
    with its index. *)
Definition find_by_tag (tag : string) (assets : list Asset.t)
  : option (nat * Asset.t) :=
  list_find (λ a, Asset.tag_id a = tag) assets.

(** [handleScanEvent]: prepend to the recent scans, keeping the first four
    of the old ones, then update the matching asset if there is one. *)
Definition handleScanEvent (scanEvent : ScanEvent.t) (st : State) : State :=
  let recentScans' := scanEvent :: take 4 (recentScans st) in
  match find_by_tag (ScanEvent.tag_id scanEvent) (assets st) with
  | Some (i, asset) =>
      {| assets := <[i := mark_seen scanEvent asset]> (assets st);
         recentScans := recentScans';
         filter := filter st |}
  | None =>
      {| assets := assets st;
         recentScans := recentScans';
         filter := filter st |}
  end.

End Dashboard.

(** ** Timestamp formatting (ScanEventList, AssetDetail, AssetCard) *)

Module Format.
Section with_date_fns.

(** date-fns: [parseISO] builds a [Date]; [format] throws a [RangeError]
    on an invalid date.  Both are library code and stay abstract. *)
Context {Date : Type}.
Variable parseISO : string → Date.
Variable format : Date → string → Js.outcome string.

(** The shape shared by the four helpers:
    [if (!timestamp) return fallback; return format(parseISO(timestamp), pattern)]. *)
Definition format_or (fallback pattern : string) (timestamp : option string)
  : Js.outcome string :=
  match Js.truthy_string timestamp, timestamp with
  | true, Some s => format (parseISO s) pattern
  | _, _ => Js.Returned fallback
  end.

(** ScanEventList.svelte *)
Definition formatTime (timestamp : option string) : Js.outcome string :=
  format_or "N/A" "h:mm:ss a" timestamp.

Definition formatDate (timestamp : option string) : Js.outcome string :=
  format_or "N/A" "MMM d" timestamp.

(** AssetDetail.svelte *)
Definition formatDateTime (date : option string) : Js.outcome string :=
  format_or "N/A" "PPpp" date.

(** AssetCard.svelte *)
Definition formatLastSeen (lastSeen : option string) : Js.outcome string :=
  format_or "Never" "MMM d, yyyy h:mm a" lastSeen.

End with_date_fns.
End Format.

(** ** Signal strength rendering (ScanEventList, AssetDetail) *)

Module Signal.
Section with_number_printing.

(** [Number::toString], as used by template interpolation. *)
Variable number_to_string : Js.number → string.

(** ScanEventList.svelte: [{#if event.rssi} Signal strength: {event.rssi}
    dBm {/if}]; [None] when the paragraph is not rendered. *)
Definition signal_line (event : ScanEvent.t) : option string :=
  match Js.truthy_number (ScanEvent.rssi event), ScanEvent.rssi event with
  | true, Some rssi => Some ("Signal strength: " ++ number_to_string rssi ++ " dBm")
  | _, _ => None
  end.

(** AssetDetail.svelte: [type Scan] and the third cell of a history row,
    [{scan.rssi ? `${scan.rssi} dBm` : 'N/A'}]. *)
Record Scan : Type := mkScan {
  scan_id : Z;
  scan_location : string;
  scan_timestamp : string;
  scan_rssi : option Js.number
}.

Definition signal_cell (scan : Scan) : string :=
  match Js.truthy_number (scan_rssi scan), scan_rssi scan with
  | true, Some rssi => number_to_string rssi ++ " dBm"
  | _, _ => "N/A"
  end.

End with_number_printing.
End Signal.

(** ** ManualScanForm.svelte *)

Module ManualScanForm.

(** The body of the POST to /api/scan:
    [JSON.stringify({tag_id: tagId, location: location})]. *)
Record Submission : Type := mkSubmission {
  tag_id : string;
  location : string
}.

(** What [fetch] resolved to: [response.ok] with the decoded scan, or a
    failure with its [statusText]. *)
Inductive Response : Type :=
| ok (scanData : ScanEvent.t)
| failed (statusText : string).

Record Form : Type := mkForm {
  tagId : string;
  form_location : string;
  submitting : bool;
  error : string;
  success : string
}.

Definition body (form : Form) : Submission :=
  {| tag_id := tagId form; location := form_location form |}.

(** [submitScan], with the server as a function of the request body and
    the parent's [onScanCreated] callback acting on the parent state. *)
Definition submitScan {Parent : Type}
    (server : Submission → Response)
    (onScanCreated : ScanEvent.t → Parent → Parent)
    (form : Form) (parent : Parent) : Form * Parent :=
  match server (body form) with
  | failed statusText =>
      ({| tagId := tagId form; form_location := form_location form;
          submitting := false;
          error := "Error creating scan: " ++ statusText;
          success := "" |}, parent)
  | ok scanData =>
      let shown_name :=
        match Js.truthy_string (ScanEvent.asset_name scanData),
              ScanEvent.asset_name scanData with
        | true, Some n => n
        | _, _ => tagId form
        end in
      ({| tagId := tagId form; form_location := form_location form;
          submitting := false;
          error := "";
          success := "Scan recorded for " ++ shown_name |},
       onScanCreated scanData parent)
  end.

End ManualScanForm.

(** ** Dashboard.svelte: loading, counters and the asset panel *)

Module DashboardPage.

(** The handlers' state together with the two flags that [loadAssets]
    writes and the template reads. *)
Record Page : Type := mkPage {
  state : Dashboard.State;
  loadingAssets : bool;
  errorMsg : string
}.

(** How the [try] block of [loadAssets] ends: the response is ok and its
    body decodes to the asset array; the response is not ok; or [fetch] or
    [response.json()] rejects, [message] being [error.message] or
    [String(error)]. *)
Inductive Fetched : Type :=
| fetched (assets : list Asset.t)
| not_ok (statusText : string)
| threw (message : string).

(** [loadAssets], from the call to the settled promise.  The success path
    assigns [assets] and [loadingAssets] only; the [catch] path assigns
    [errorMsg] and [loadingAssets] only. *)
Definition loadAssets (outcome : Fetched) (page : Page) : Page :=
  match outcome with
  | fetched assets =>
      {| state := {| Dashboard.assets := assets;
                     Dashboard.recentScans := Dashboard.recentScans (state page);
                     Dashboard.filter := Dashboard.filter (state page) |};
         loadingAssets := false;
         errorMsg := errorMsg page |}
  | not_ok statusText =>
      {| state := state page;
         loadingAssets := false;
         errorMsg := "Error fetching assets: " ++ statusText |}
  | threw message =>
      {| state := state page;
         loadingAssets := false;
         errorMsg := message |}
  end.

(** [assets.filter(a => a.status === status).length], the expression behind
    the "Active Assets" and "Missing Assets" cards. *)
Definition count_status (status : string) (assets : list Asset.t) : nat :=
  length (base.filter (λ a, Asset.status a = status) assets).

Definition totalAssets (assets : list Asset.t) : nat := length assets.
Definition activeAssets (assets : list Asset.t) : nat := count_status "active" assets.
Definition missingAssets (assets : list Asset.t) : nat := count_status "missing" assets.

(** The asset list card:
    [{#if loadingAssets} .. {:else if errorMsg} .. {:else if
    filteredAssets.length === 0} .. {:else} {#each filteredAssets ..}]. *)
Inductive Panel : Type :=
| LoadingPanel
| ErrorPanel (message : string)
| NoAssetsFound
| AssetCards (cards : list Asset.t).

Definition asset_panel (page : Page) : Panel :=
  if loadingAssets page then LoadingPanel
  else if Js.truthy_string (Some (errorMsg page)) then ErrorPanel (errorMsg page)
  else match Dashboard.filteredAssets (Dashboard.filter (state page))
                                      (Dashboard.assets (state page)) with
       | [] => NoAssetsFound
       | cards => AssetCards cards
       end.

End DashboardPage.

(** ** AssetCard.svelte and AssetDetail.svelte: the status badge *)

Module AssetCard.

(** [getStatusBadgeClass]: a [switch] over the three statuses, with a
    default. *)
Definition getStatusBadgeClass (status : string) : string :=
  if decide (status = "active") then "badge badge-active"
  else if decide (status = "missing") then "badge badge-missing"
  else if decide (status = "idle") then "badge badge-idle"
  else "badge".

End AssetCard.

Module AssetDetail.

(** The class of the status badge in the detail header:
    [`badge ${asset.status === 'active' ? 'badge-active' :
    asset.status === 'missing' ? 'badge-missing' : 'badge-idle'}`]. *)
Definition status_badge_class (status : string) : string :=
  "badge " ++ (if decide (status = "active") then "badge-active"
               else if decide (status = "missing") then "badge-missing"
               else "badge-idle").

End AssetDetail.

(** ** ScanEventList.svelte: the title of a row *)

Module ScanRow.

(** [{event.asset_name || `Asset (${event.tag_id})`}]. *)
Definition title (event : ScanEvent.t) : string :=
  match Js.truthy_string (ScanEvent.asset_name event),
        ScanEvent.asset_name event with
  | true, Some asset_name => asset_name
  | _, _ => "Asset (" ++ ScanEvent.tag_id event ++ ")"
  end.

End ScanRow.

(** ** The ingestion core (back end, absent from the sources) *)

Module Core.

(** Modelled from the spec: the back end's timestamps (section 3, assigned
    by the process clock), as integer clock ticks. *)
Definition Timestamp : Type := Z.
Bind Scope Z_scope with Timestamp.

(** Modelled from the spec: the back end's status enumeration
    {active, idle, missing} of section 3. *)
Inductive Status : Type := active | idle | missing.

#[global] Instance Status_eq_dec : EqDecision Status.
Proof. solve_decision. Defined.

(** Modelled from the spec: the severity order active → idle → missing of
    section 8, which the back end's status decay follows. *)
Definition severity (s : Status) : nat :=
  match s with
  | active => 0
  | idle => 1
  | missing => 2
  end.

(** Modelled from the spec: the back end's error taxonomy of section 7. *)
Inductive Error : Type :=
| InvalidEvent
| UnknownTag
| ObserverUnreachable
| ConfigurationInvalid.

(** Modelled from the spec: the result of a fallible back-end operation,
    a value or one of the errors of section 7. *)
Inductive Result (A : Type) : Type :=
| Ok (a : A)
| Err (e : Error).
Arguments Ok {A} a.
Arguments Err {A} e.

(** Modelled from the spec: the back end's threshold configuration
    [T_active], [T_missing] of sections 4.3 and 6. *)
Record Thresholds : Type := mkThresholds {
  T_active : Z;
  T_missing : Z
}.

(** Modelled from the spec: the back end's startup check, which rejects
    thresholds that violate [T_active < T_missing] (sections 4.3, 7). *)
Definition check_thresholds (cfg : Thresholds) : Result Thresholds :=
  if decide (T_active cfg < T_missing cfg)%Z then Ok cfg
  else Err ConfigurationInvalid.

(** Modelled from the spec: the back end's Asset record of section 3. *)
Record Asset : Type := mkAsset {
  id : Z;
  tag_id : string;
  name : string;
  description : string;
  asset_type : string;
  status : Status;
  last_seen : option Timestamp;
  last_location : option string
}.

(** Modelled from the spec: the back end's canonical ScanEvent of
    section 3. *)
Record ScanEvent : Type := mkScanEvent {
  ev_tag_id : string;
  ev_location : string;
  ev_timestamp : Timestamp;
  ev_rssi : option Js.number
}.

(** Modelled from the spec: the raw event description that the back end's
    normalizer accepts (sections 4.1, 6): the two required fields, either
    of which may be missing, and whatever time the caller claims. *)
Record RawEvent : Type := mkRawEvent {
  raw_tag_id : option string;
  raw_location : option string;
  raw_claimed_time : option Timestamp;
  raw_rssi : option Js.number
}.

(** Modelled from the spec: the back end's Transition record
    [{asset_id, old_status, new_status}] of section 4.2. *)
Record Transition : Type := mkTransition {
  asset_id : Z;
  old_status : Status;
  new_status : Status
}.

(** Modelled from the spec: "present and non-empty" for a required field
    of the back end's normalizer (section 4.1). *)
Definition required (field : option string) : option string :=
  match field with
  | Some s => if decide (s = "") then None else Some s
  | None => None
  end.

(** Modelled from the spec: the back end's Event Normalizer (section 4.1),
    [InvalidEvent] when [tag_id] or [location] is missing or empty, and the
    timestamp read from the process clock [clock]. *)
Definition normalize (clock : Timestamp) (raw : RawEvent) : Result ScanEvent :=
  match required (raw_tag_id raw), required (raw_location raw) with
  | Some tag, Some loc =>
      Ok {| ev_tag_id := tag; ev_location := loc;
            ev_timestamp := clock; ev_rssi := raw_rssi raw |}
  | _, _ => Err InvalidEvent
  end.

(** Modelled from the spec: how the back end receives the front end's
    submission: the body of ManualScanForm's POST has the two fields and
    nothing else. *)
Definition raw_of_submission (s : ManualScanForm.Submission) : RawEvent :=
  {| raw_tag_id := Some (ManualScanForm.tag_id s);
     raw_location := Some (ManualScanForm.location s);
     raw_claimed_time := None;
     raw_rssi := None |}.

(** Modelled from the spec: the back end's status derivation of
    section 4.3, from the elapsed time [now - last_seen]. *)
Definition derive_status (cfg : Thresholds) (now : Timestamp)
    (last_seen : option Timestamp) : Status :=
  match last_seen with
  | None => missing
  | Some seen =>
      let Δ := (now - seen)%Z in
      if decide (Δ < T_active cfg)%Z then active
      else if decide (Δ < T_missing cfg)%Z then idle
      else missing
  end.

(** Modelled from the spec: an Asset of the back end's store with its
    status replaced. *)
Definition with_status (s : Status) (a : Asset) : Asset :=
  {| id := id a; tag_id := tag_id a; name := name a;
     description := description a; asset_type := asset_type a;
     status := s;
     last_seen := last_seen a; last_location := last_location a |}.

(** Modelled from the spec: the fresh-sighting update of the back end's
    [apply] (section 4.2): [last_seen], [last_location] and [status]. *)
Definition sighted (event : ScanEvent) (a : Asset) : Asset :=
  {| id := id a; tag_id := tag_id a; name := name a;
     description := description a; asset_type := asset_type a;
     status := active;
     last_seen := Some (ev_timestamp event);
     last_location := Some (ev_location event) |}.

(** Modelled from the spec: the back end's [apply] (section 4.2) on the
    Asset State Store, a map keyed by tag identifier; the store is threaded
    through so that a failure shows what it left behind. *)
Definition apply (event : ScanEvent) (store : gmap string Asset)
  : gmap string Asset * Result (Asset * Transition) :=
  match store !! ev_tag_id event with
  | None => (store, Err UnknownTag)
  | Some a =>
      let a' := sighted event a in
      (<[ev_tag_id event := a']> store,
       Ok (a', {| asset_id := id a;
                  old_status := status a;
                  new_status := status a' |}))
  end.

(** Modelled from the spec: the back end's staleness test of section 4.2,
    the stored status differs from the derived one. *)
Definition stale (cfg : Thresholds) (now : Timestamp) (a : Asset) : bool :=
  bool_decide (status a ≠ derive_status cfg now (last_seen a)).

(** Modelled from the spec: the per-asset step of the back end's
    [sweepStatuses]: a stale asset gets its derived status. *)
Definition refresh (cfg : Thresholds) (now : Timestamp) (a : Asset) : Asset :=
  if stale cfg now a
  then with_status (derive_status cfg now (last_seen a)) a
  else a.

(** Modelled from the spec: the Transition that the back end's
    [sweepStatuses] reports for an asset, if its status changes. *)
Definition transition_of (cfg : Thresholds) (now : Timestamp) (a : Asset)
  : option Transition :=
  if stale cfg now a
  then Some {| asset_id := id a;
               old_status := status a;
               new_status := derive_status cfg now (last_seen a) |}
  else None.

(** Modelled from the spec: the back end's [sweepStatuses] (section 4.2):
    the swept store and the Transitions of the assets that changed. *)
Definition sweepStatuses (cfg : Thresholds) (now : Timestamp)
    (store : gmap string Asset) : gmap string Asset * list Transition :=
  (refresh cfg now <$> store,
   omap (transition_of cfg now) (map_to_list store).*2).

End Core.

Bind Scope Z_scope with Core.Timestamp.

(** ** Predicates used to state the properties *)

(** What the update writes and what it keeps. *)
Definition seen_as (ev : ScanEvent.t) (before after : Asset.t) : Prop :=
  Asset.status after = "active" ∧
  Asset.last_seen after = Some (ScanEvent.timestamp ev) ∧
  Asset.last_location after = Some (ScanEvent.location ev) ∧
  Asset.id after = Asset.id before ∧
  Asset.tag_id after = Asset.tag_id before ∧
  Asset.name after = Asset.name before ∧
  Asset.description after = Asset.description before ∧
  Asset.asset_type after = Asset.asset_type before.

(** [known_tag tag assets]: some asset of the list carries the tag. *)
Definition known_tag (tag : string) (assets : list Asset.t) : Prop :=
  ∃ a, a ∈ assets ∧ Asset.tag_id a = tag.

(** [well_formed raw]: both required fields are present and non-empty. *)
Definition well_formed (raw : Core.RawEvent) : Prop :=
  ∃ tag loc, Core.raw_tag_id raw = Some tag ∧ tag ≠ "" ∧
             Core.raw_location raw = Some loc ∧ loc ≠ "".

(** The same raw event with another time claimed by the caller. *)
Definition claiming (claimed : option Core.Timestamp) (raw : Core.RawEvent)
  : Core.RawEvent :=
  {| Core.raw_tag_id := Core.raw_tag_id raw;
     Core.raw_location := Core.raw_location raw;
     Core.raw_claimed_time := claimed;
     Core.raw_rssi := Core.raw_rssi raw |}.

(** ** Sample data

    The fleet of the README's walk-through (tags RF001..RF003) and a scan of
    RF001 at the office, used by the examples below. *)

Definition laptop : Asset.t :=
  {| Asset.id := 1; Asset.tag_id := "RF001"; Asset.name := "Laptop";
     Asset.description := ""; Asset.asset_type := "Electronics";
     Asset.status := "missing";
     Asset.last_seen := None; Asset.last_location := None |}.

Definition chair : Asset.t :=
  {| Asset.id := 2; Asset.tag_id := "RF002"; Asset.name := "Chair";
     Asset.description := "Conference room chair";
     Asset.asset_type := "Furniture";
     Asset.status := "idle";
     Asset.last_seen := Some "2024-01-01T09:00:00";
     Asset.last_location := Some "Lobby" |}.

Definition projector : Asset.t :=
  {| Asset.id := 3; Asset.tag_id := "RF003"; Asset.name := "Projector";
     Asset.description := ""; Asset.asset_type := "Electronics";
     Asset.status := "active";
     Asset.last_seen := Some "2024-01-01T09:59:00";
     Asset.last_location := Some "Meeting Room" |}.

Definition scan_of (tag location time : string) (rssi : option Js.number)
  : ScanEvent.t :=
  {| ScanEvent.tag_id := tag; ScanEvent.location := location;
     ScanEvent.timestamp := time;
     ScanEvent.asset_name := None; ScanEvent.asset_type := None;
     ScanEvent.rssi := rssi |}.

Definition office_scan : ScanEvent.t :=
  scan_of "RF001" "Office" "2024-01-01T10:00:00" (Some (-45)%float).

Definition stray_scan : ScanEvent.t :=
  scan_of "RF999" "Lobby" "2024-01-01T10:00:05" None.

Definition kitchen_scan : ScanEvent.t :=
  scan_of "RF001" "Kitchen" "2024-01-01T10:01:00" None.

Definition chair_scan : ScanEvent.t :=
  scan_of "RF002" "Warehouse" "2024-01-01T10:02:00" (Some (-60)%float).

Definition fleet : Dashboard.State :=
  {| Dashboard.assets := [laptop; chair; projector];
     Dashboard.recentScans := [];
     Dashboard.filter := "all" |}.

(** The same fleet in the back end's store, with the thresholds of the
    specification's second scenario ([T_active] 10 s, [T_missing] 30 s). *)

Definition thresholds_10_30 : Core.Thresholds :=
  {| Core.T_active := 10; Core.T_missing := 30 |}.

Definition core_asset (id : Z) (tag name : string) (status : Core.Status)
    (last_seen : option Core.Timestamp) (last_location : option string)
  : Core.Asset :=
  {| Core.id := id; Core.tag_id := tag; Core.name := name;
     Core.description := ""; Core.asset_type := "Electronics";
     Core.status := status;
     Core.last_seen := last_seen; Core.last_location := last_location |}.

Definition core_fleet : gmap string Core.Asset :=
  <["RF001" := core_asset 1 "RF001" "Laptop" Core.missing None None]>
  (<["RF002" := core_asset 2 "RF002" "Chair" Core.active (Some 0%Z) (Some "Lobby")]>
   ∅).

Definition core_scan (tag location : string) (time : Core.Timestamp)
  : Core.ScanEvent :=
  {| Core.ev_tag_id := tag; Core.ev_location := location;
     Core.ev_timestamp := time; Core.ev_rssi := None |}.

(** A history row and a scan event with a given signal reading. *)
Definition history_row (rssi : option Js.number) : Signal.Scan :=
  {| Signal.scan_id := 1; Signal.scan_location := "Office";
     Signal.scan_timestamp := "2024-01-01T10:00:00";
     Signal.scan_rssi := rssi |}.

Definition with_rssi (rssi : option Js.number) (ev : ScanEvent.t) : ScanEvent.t :=
  {| ScanEvent.tag_id := ScanEvent.tag_id ev;
     ScanEvent.location := ScanEvent.location ev;
     ScanEvent.timestamp := ScanEvent.timestamp ev;
     ScanEvent.asset_name := ScanEvent.asset_name ev;
     ScanEvent.asset_type := ScanEvent.asset_type ev;
     ScanEvent.rssi := rssi |}.

(** A reading that is present and not zero. *)
Definition nonzero_reading (rssi : option Js.number) : Prop :=
  ∃ r, rssi = Some r ∧ PrimFloat.eqb r 0%float = false.

(** A date formatter that throws on every call. *)
Definition throwing_format : unit → string → Js.outcome string :=
  λ _ _, Js.Thrown "RangeError: Invalid time value".

(** The page as the component creates it, and after a first load that the
    server answered with a 500. *)
Definition fresh_page : DashboardPage.Page :=
  {| DashboardPage.state :=
       {| Dashboard.assets := []; Dashboard.recentScans := [];
          Dashboard.filter := "all" |};
     DashboardPage.loadingAssets := true;
     DashboardPage.errorMsg := "" |}.


(** A form that was filled in and not yet submitted. *)
Definition form_of (tagId location : string) : ManualScanForm.Form :=
  {| ManualScanForm.tagId := tagId;
     ManualScanForm.form_location := location;
     ManualScanForm.submitting := false;
     ManualScanForm.error := "";
     ManualScanForm.success := "" |}.

(** ** Runs of scan events *)

(** The dashboard after the events of [evs] were handled one after the
    other, oldest first, as successive [ws.onmessage] calls do. *)
Definition run (evs : list ScanEvent.t) (st : Dashboard.State) : Dashboard.State :=
  foldl (λ st ev, Dashboard.handleScanEvent ev st) st evs.

(** Tag identifiers are unique across the asset list. *)
Definition unique_tags (assets : list Asset.t) : Prop :=
  NoDup (Asset.tag_id <$> assets).

(** The fields of an asset that no handler writes. *)
Definition identity (a : Asset.t) : Z * string * string * string * string :=
  (Asset.id a, Asset.tag_id a, Asset.name a, Asset.description a,
   Asset.asset_type a).

(** The newest event of [evs] that carries [tag], if any. *)
Definition last_scan_of (tag : string) (evs : list ScanEvent.t)
  : option ScanEvent.t :=
  last (base.filter (λ ev, ScanEvent.tag_id ev = tag) evs).

(** An asset as the newest matching event of a run leaves it. *)
Definition after_scans (evs : list ScanEvent.t) (a : Asset.t) : Asset.t :=
  match last_scan_of (Asset.tag_id a) evs with
  | Some ev => Dashboard.mark_seen ev a
  | None => a
  end.

(** * Properties *)

(** ** Dashboard: handling a scan event *)

Lemma find_by_tag_Some tag (l : list Asset.t) i a :
  Dashboard.find_by_tag tag l = Some (i, a) ↔
  l !! i = Some a ∧ Asset.tag_id a = tag ∧
  ∀ j b, l !! j = Some b → j < i → Asset.tag_id b ≠ tag.
Proof. unfold Dashboard.find_by_tag. by rewrite list_find_Some. Qed.

Lemma find_by_tag_None tag (l : list Asset.t) :
  Dashboard.find_by_tag tag l = None ↔ ∀ a, a ∈ l → Asset.tag_id a ≠ tag.
Proof.
  unfold Dashboard.find_by_tag. rewrite list_find_None, Forall_forall. done.
Qed.

Lemma find_by_tag_known tag (l : list Asset.t) :
  known_tag tag l → ∃ i a, Dashboard.find_by_tag tag l = Some (i, a).
Proof.
  intros (a & Hin & Htag).
  destruct (Dashboard.find_by_tag tag l) as [[i b]|] eqn:Hfind; [eauto|].
  rewrite find_by_tag_None in Hfind. by destruct (Hfind a Hin).
Qed.

Lemma handleScanEvent_recentScans ev st :
  Dashboard.recentScans (Dashboard.handleScanEvent ev st)
  = ev :: take 4 (Dashboard.recentScans st).
Proof.
  unfold Dashboard.handleScanEvent.
  by destruct (Dashboard.find_by_tag _ _) as [[i a]|].
Qed.

Lemma handleScanEvent_assets_found ev st i a :
  Dashboard.find_by_tag (ScanEvent.tag_id ev) (Dashboard.assets st) = Some (i, a) →
  Dashboard.assets (Dashboard.handleScanEvent ev st)
  = <[i := Dashboard.mark_seen ev a]> (Dashboard.assets st).
Proof. intros Hfind. unfold Dashboard.handleScanEvent. by rewrite Hfind. Qed.

Lemma mark_seen_seen_as ev a : seen_as ev a (Dashboard.mark_seen ev a).
Proof. by repeat split. Qed.

(** C1. For a scan event whose tag is known, [handleScanEvent] updates the
    asset that [find] selects (the first one carrying the tag): afterwards
    its status is "active", its [last_seen] is the event's timestamp and its
    [last_location] the event's location, whatever its status was; its other
    fields and every other asset are untouched.  When tag identifiers are
    unique, every asset carrying the event's tag is therefore in that
    state. *)
Theorem handleScanEvent_known_tag (ev : ScanEvent.t) (st : Dashboard.State) :
  known_tag (ScanEvent.tag_id ev) (Dashboard.assets st) →
  let st' := Dashboard.handleScanEvent ev st in
  (∃ i before after,
      Dashboard.assets st !! i = Some before ∧
      Asset.tag_id before = ScanEvent.tag_id ev ∧
      (∀ j b, Dashboard.assets st !! j = Some b → j < i →
              Asset.tag_id b ≠ ScanEvent.tag_id ev) ∧
      Dashboard.assets st' !! i = Some after ∧
      seen_as ev before after ∧
      (∀ j, j ≠ i → Dashboard.assets st' !! j = Dashboard.assets st !! j)) ∧
  length (Dashboard.assets st') = length (Dashboard.assets st) ∧
  (NoDup (Asset.tag_id <$> Dashboard.assets st) →
   ∀ b, b ∈ Dashboard.assets st' →
        Asset.tag_id b = ScanEvent.tag_id ev →
        Asset.status b = "active" ∧
        Asset.last_seen b = Some (ScanEvent.timestamp ev) ∧
        Asset.last_location b = Some (ScanEvent.location ev)).
Proof.
  intros Hknown st'.
  destruct (find_by_tag_known _ _ Hknown) as (i & a & Hfind).
  pose proof (handleScanEvent_assets_found _ _ _ _ Hfind) as Hassets.
  fold st' in Hassets.
  apply find_by_tag_Some in Hfind as (Hi & Htag & Hfirst).
  assert (i < length (Dashboard.assets st)) as Hlt by by eapply lookup_lt_Some.
  split_and!.
  - exists i, a, (Dashboard.mark_seen ev a).
    split; [exact Hi|]. split; [exact Htag|]. split; [exact Hfirst|].
    split; [|split].
    + rewrite Hassets. by apply list_lookup_insert_eq.
    + apply mark_seen_seen_as.
    + intros j Hj. rewrite Hassets. by apply list_lookup_insert_ne.
  - rewrite Hassets. apply length_insert.
  - intros Hnodup b Hb Hbtag.
    apply list_elem_of_lookup in Hb as [j Hj].
    rewrite Hassets in Hj.
    destruct (decide (j = i)) as [->|Hne].
    + rewrite list_lookup_insert_eq in Hj by done.
      injection Hj as <-. done.
    + rewrite list_lookup_insert_ne in Hj by done.
      exfalso. apply Hne.
      apply (NoDup_lookup _ j i (ScanEvent.tag_id ev) Hnodup);
        rewrite list_lookup_fmap.
      * by rewrite Hj; simpl; rewrite Hbtag.
      * by rewrite Hi; simpl; rewrite Htag.
Qed.

Lemma office_scan_known : known_tag "RF001" (Dashboard.assets fleet).
Proof. exists laptop. split; [apply list_elem_of_here | reflexivity]. Defined.

Lemma handleScanEvent_known_tag_witness :
  known_tag (ScanEvent.tag_id office_scan) (Dashboard.assets fleet) ∧
  length (Dashboard.assets (Dashboard.handleScanEvent office_scan fleet)) = 3.
Proof.
  split; [exact office_scan_known|].
  exact (proj1 (proj2 (handleScanEvent_known_tag office_scan fleet
                         office_scan_known))).
Defined.

(** End-to-end scenario 1 on the dashboard: RF001, never scanned and shown
    as missing, is active at the office after the scan; the other two assets
    are as they were. *)
Example handleScanEvent_office_scan :
  Dashboard.assets (Dashboard.handleScanEvent office_scan fleet)
  = [ {| Asset.id := 1; Asset.tag_id := "RF001"; Asset.name := "Laptop";
         Asset.description := ""; Asset.asset_type := "Electronics";
         Asset.status := "active";
         Asset.last_seen := Some "2024-01-01T10:00:00";
         Asset.last_location := Some "Office" |};
      chair; projector ].
Proof. reflexivity. Qed.

(** ** Dashboard: the recent-scans buffer *)

(** C8. After every handled scan event the recent-scans list has at most
    five entries, the handled event is its head, and the rest is the first
    four of the old entries, in their old order. *)
Theorem handleScanEvent_recentScans_bounded (ev : ScanEvent.t) (st : Dashboard.State) :
  let old := Dashboard.recentScans st in
  let new := Dashboard.recentScans (Dashboard.handleScanEvent ev st) in
  (length new ≤ 5)%nat ∧
  head new = Some ev ∧
  tail new = take 4 old ∧
  tail new `prefix_of` old ∧
  tail new `sublist_of` old ∧
  (∀ i, (i < 4)%nat → tail new !! i = old !! i) ∧
  length new = S (min 4 (length old)).
Proof.
  intros old new. subst old new. rewrite handleScanEvent_recentScans. simpl.
  split_and!.
  - rewrite length_take. lia.
  - done.
  - done.
  - apply prefix_take.
  - apply sublist_take.
  - intros i Hi. by apply lookup_take_lt.
  - by rewrite length_take.
Qed.

(** The buffer stays bounded along any run of events, whatever it held at
    the start. *)
Lemma recentScans_bounded_run (evs : list ScanEvent.t) (st : Dashboard.State) :
  evs ≠ [] →
  (length (Dashboard.recentScans
             (foldl (λ s e, Dashboard.handleScanEvent e s) st evs)) ≤ 5)%nat.
Proof.
  induction evs as [|e evs IH] using rev_ind; [done|]. intros _.
  rewrite foldl_app. simpl. rewrite handleScanEvent_recentScans. simpl.
  rewrite length_take. lia.
Qed.

(** ** Dashboard: filtering by status *)

Lemma sublist_filter_max {A} (P : A → Prop) `{!∀ x, Decision (P x)} (l k : list A) :
  l `sublist_of` k → Forall P l → l `sublist_of` base.filter P k.
Proof.
  induction 1 as [|x l k Hsub IH|x l k Hsub IH]; intros HP.
  - done.
  - apply Forall_cons in HP as [Hx HP].
    rewrite filter_cons_True by done. apply sublist_skip. auto.
  - rewrite filter_cons. destruct (decide (P x)); [apply sublist_cons|]; auto.
Qed.

Lemma filteredAssets_all (assets : list Asset.t) :
  Dashboard.filteredAssets "all" assets = assets.
Proof. reflexivity. Qed.

Lemma filteredAssets_status (f : string) (assets : list Asset.t) :
  f ≠ "all" →
  Dashboard.filteredAssets f assets = base.filter (λ a, Asset.status a = f) assets.
Proof. intros Hf. unfold Dashboard.filteredAssets. by case_decide. Qed.

(** C7. Filtering by "all" gives the asset list itself.  Filtering by a
    status value (any filter other than "all") gives the assets with that
    status and no others, in the order of the asset list: the result is a
    subsequence of the list, and every subsequence of the list made only of
    assets with that status is a subsequence of the result. *)
Theorem filteredAssets_spec (f : string) (assets : list Asset.t) :
  f ≠ "all" →
  Dashboard.filteredAssets "all" assets = assets ∧
  Dashboard.filteredAssets f assets `sublist_of` assets ∧
  (∀ a, a ∈ Dashboard.filteredAssets f assets ↔ a ∈ assets ∧ Asset.status a = f) ∧
  (∀ l, l `sublist_of` assets → Forall (λ a, Asset.status a = f) l →
        l `sublist_of` Dashboard.filteredAssets f assets).
Proof.
  intros Hf. rewrite (filteredAssets_status f) by done. split_and!.
  - apply filteredAssets_all.
  - apply sublist_filter.
  - intros a. rewrite list_elem_of_filter. tauto.
  - intros l. apply sublist_filter_max.
Qed.

Lemma filteredAssets_spec_witness :
  "missing" ≠ "all" ∧
  Dashboard.filteredAssets "missing" (Dashboard.assets fleet)
    `sublist_of` Dashboard.assets fleet.
Proof.
  assert ("missing" ≠ "all") as Hne by discriminate.
  split; [exact Hne|].
  exact (proj1 (proj2 (filteredAssets_spec "missing" (Dashboard.assets fleet) Hne))).
Defined.

Example filteredAssets_active :
  Dashboard.filteredAssets "active"
    (Dashboard.assets (Dashboard.handleScanEvent office_scan fleet))
  = [Dashboard.mark_seen office_scan laptop; projector].
Proof. reflexivity. Qed.

Example filteredAssets_missing :
  Dashboard.filteredAssets "missing" (Dashboard.assets fleet) = [laptop].
Proof. reflexivity. Qed.

(** ** Unknown tags *)

Lemma handleScanEvent_assets_unknown ev st :
  ¬ known_tag (ScanEvent.tag_id ev) (Dashboard.assets st) →
  Dashboard.handleScanEvent ev st
  = {| Dashboard.assets := Dashboard.assets st;
       Dashboard.recentScans := ev :: take 4 (Dashboard.recentScans st);
       Dashboard.filter := Dashboard.filter st |}.
Proof.
  intros Hunknown. unfold Dashboard.handleScanEvent.
  destruct (Dashboard.find_by_tag _ _) as [[i a]|] eqn:Hfind; [|done].
  apply find_by_tag_Some in Hfind as (Hi & Htag & _).
  destruct Hunknown. exists a. split; [|done].
  apply list_elem_of_lookup. eauto.
Qed.

(** A submission that the server rejects is surfaced in the form's [error]
    and never reaches the parent's handler. *)
Lemma submitScan_failed {Parent} server (onScanCreated : ScanEvent.t → Parent → Parent)
    form parent statusText :
  server (ManualScanForm.body form) = ManualScanForm.failed statusText →
  let '(form', parent') :=
    ManualScanForm.submitScan server onScanCreated form parent in
  parent' = parent ∧
  ManualScanForm.error form' = "Error creating scan: " ++ statusText ∧
  ManualScanForm.success form' = "".
Proof. intros Hresp. unfold ManualScanForm.submitScan. by rewrite Hresp. Qed.

Lemma apply_unknown (event : Core.ScanEvent) (store : gmap string Core.Asset) :
  store !! Core.ev_tag_id event = None →
  Core.apply event store = (store, Core.Err Core.UnknownTag).
Proof. intros Hnone. unfold Core.apply. by rewrite Hnone. Qed.

Lemma apply_known (event : Core.ScanEvent) (store : gmap string Core.Asset) a :
  store !! Core.ev_tag_id event = Some a →
  Core.apply event store
  = (<[Core.ev_tag_id event := Core.sighted event a]> store,
     Core.Ok (Core.sighted event a,
              {| Core.asset_id := Core.id a;
                 Core.old_status := Core.status a;
                 Core.new_status := Core.active |})).
Proof. intros Hsome. unfold Core.apply. by rewrite Hsome. Qed.

(** C2. An event whose tag matches no asset leaves the assets as they are.
    On the dashboard, [handleScanEvent] returns the asset list (and the
    filter) it was given; in the asset state store, [apply] returns the
    store it was given together with the [UnknownTag] error. *)
Theorem unknown_tag_changes_nothing
    (ev : ScanEvent.t) (st : Dashboard.State)
    (event : Core.ScanEvent) (store : gmap string Core.Asset) :
  ¬ known_tag (ScanEvent.tag_id ev) (Dashboard.assets st) →
  store !! Core.ev_tag_id event = None →
  Dashboard.assets (Dashboard.handleScanEvent ev st) = Dashboard.assets st ∧
  Dashboard.filter (Dashboard.handleScanEvent ev st) = Dashboard.filter st ∧
  (∀ i, Dashboard.assets (Dashboard.handleScanEvent ev st) !! i
        = Dashboard.assets st !! i) ∧
  Core.apply event store = (store, Core.Err Core.UnknownTag) ∧
  (∀ tag, (Core.apply event store).1 !! tag = store !! tag).
Proof.
  intros Hunknown Hnone.
  rewrite (handleScanEvent_assets_unknown _ _ Hunknown).
  rewrite (apply_unknown _ _ Hnone). done.
Qed.

Lemma known_tag_find tag (l : list Asset.t) :
  known_tag tag l ↔ is_Some (Dashboard.find_by_tag tag l).
Proof.
  split.
  - intros H. destruct (find_by_tag_known _ _ H) as (i & a & ->). eauto.
  - intros [[i a] (Hi & Htag & _)%find_by_tag_Some].
    exists a. split; [|done]. apply list_elem_of_lookup. eauto.
Qed.

Lemma stray_scan_unknown :
  ¬ known_tag (ScanEvent.tag_id stray_scan) (Dashboard.assets fleet).
Proof. rewrite known_tag_find. intros [x Hx]. discriminate Hx. Qed.

Lemma unknown_tag_changes_nothing_witness :
  ¬ known_tag (ScanEvent.tag_id stray_scan) (Dashboard.assets fleet) ∧
  core_fleet !! Core.ev_tag_id (core_scan "RF999" "Lobby" 5%Z) = None ∧
  Dashboard.assets (Dashboard.handleScanEvent stray_scan fleet)
  = Dashboard.assets fleet ∧
  Core.apply (core_scan "RF999" "Lobby" 5%Z) core_fleet
  = (core_fleet, Core.Err Core.UnknownTag).
Proof.
  assert (core_fleet !! Core.ev_tag_id (core_scan "RF999" "Lobby" 5%Z) = None)
    as Hnone by (vm_compute; reflexivity).
  pose proof (unknown_tag_changes_nothing stray_scan fleet
                (core_scan "RF999" "Lobby" 5%Z) core_fleet
                stray_scan_unknown Hnone) as (Ha & _ & _ & Hb & _).
  split_and!; [exact stray_scan_unknown | exact Hnone | exact Ha | exact Hb].
Defined.

(** End-to-end scenario 3 on the dashboard: the stray scan is listed among
    the recent scans, and no asset changes. *)
Example handleScanEvent_stray_scan :
  Dashboard.handleScanEvent stray_scan fleet
  = {| Dashboard.assets := [laptop; chair; projector];
       Dashboard.recentScans := [stray_scan];
       Dashboard.filter := "all" |}.
Proof. reflexivity. Qed.

(** ** Status derivation *)

Lemma derive_status_never_seen cfg now :
  Core.derive_status cfg now None = Core.missing.
Proof. reflexivity. Qed.

Lemma derive_status_active cfg now seen :
  Core.derive_status cfg now (Some seen) = Core.active ↔
  (now - seen < Core.T_active cfg)%Z.
Proof. unfold Core.derive_status. repeat case_decide; split; (done || lia). Qed.

Lemma derive_status_idle cfg now seen :
  Core.derive_status cfg now (Some seen) = Core.idle ↔
  (Core.T_active cfg ≤ now - seen < Core.T_missing cfg)%Z.
Proof. unfold Core.derive_status. repeat case_decide; split; (done || lia). Qed.

Lemma derive_status_missing cfg now seen :
  (Core.T_active cfg < Core.T_missing cfg)%Z →
  Core.derive_status cfg now (Some seen) = Core.missing ↔
  (Core.T_missing cfg ≤ now - seen)%Z.
Proof.
  intros Hcfg. unfold Core.derive_status.
  repeat case_decide; split; (done || lia).
Qed.

Lemma refresh_status cfg now a :
  Core.status (Core.refresh cfg now a)
  = Core.derive_status cfg now (Core.last_seen a).
Proof.
  unfold Core.refresh, Core.stale. by case_bool_decide.
Qed.

Lemma refresh_last_seen cfg now a :
  Core.last_seen (Core.refresh cfg now a) = Core.last_seen a.
Proof. unfold Core.refresh. by destruct (Core.stale cfg now a). Qed.

Lemma refresh_id cfg now a :
  Core.id (Core.refresh cfg now a) = Core.id a.
Proof. unfold Core.refresh. by destruct (Core.stale cfg now a). Qed.

Lemma sweepStatuses_lookup cfg now (store : gmap string Core.Asset) tag :
  (Core.sweepStatuses cfg now store).1 !! tag
  = Core.refresh cfg now <$> store !! tag.
Proof. unfold Core.sweepStatuses. simpl. apply lookup_fmap. Qed.

(** C3. Under thresholds with [T_active < T_missing], the derived status is
    determined by [last_seen] and the current time alone: with
    Δ = now - last_seen it is active iff Δ < T_active, idle iff
    T_active ≤ Δ < T_missing, and missing iff Δ ≥ T_missing or [last_seen]
    is absent; a never-seen asset is missing, not idle.  After a sweep at
    [now], every stored asset carries the status derived from its own
    [last_seen] and [now]. *)
Theorem derive_status_spec (cfg : Core.Thresholds) (now : Core.Timestamp)
    (last_seen : option Core.Timestamp) :
  (Core.T_active cfg < Core.T_missing cfg)%Z →
  let status := Core.derive_status cfg now last_seen in
  (status = Core.active ↔
     ∃ seen, last_seen = Some seen ∧ (now - seen < Core.T_active cfg)%Z) ∧
  (status = Core.idle ↔
     ∃ seen, last_seen = Some seen ∧
             (Core.T_active cfg ≤ now - seen < Core.T_missing cfg)%Z) ∧
  (status = Core.missing ↔
     last_seen = None ∨
     ∃ seen, last_seen = Some seen ∧ (Core.T_missing cfg ≤ now - seen)%Z) ∧
  Core.derive_status cfg now None = Core.missing ∧
  Core.derive_status cfg now None ≠ Core.idle ∧
  (∀ (store : gmap string Core.Asset) tag a,
     (Core.sweepStatuses cfg now store).1 !! tag = Some a →
     Core.status a = Core.derive_status cfg now (Core.last_seen a)).
Proof.
  intros Hcfg status. subst status.
  assert (∀ (P : Core.Timestamp → Prop) (seen : Core.Timestamp),
            P seen ↔ ∃ seen', Some seen = Some seen' ∧ P seen') as Hsome.
  { intros P seen. split; [eauto|]. by intros (? & [= <-] & ?). }
  split_and!.
  - destruct last_seen as [seen|].
    + rewrite derive_status_active.
      apply (Hsome (λ s, now - s < Core.T_active cfg)%Z).
    + simpl. split; [done|]. by intros (? & ? & _).
  - destruct last_seen as [seen|].
    + rewrite derive_status_idle.
      apply (Hsome (λ s, Core.T_active cfg ≤ now - s < Core.T_missing cfg)%Z).
    + simpl. split; [done|]. by intros (? & ? & _).
  - destruct last_seen as [seen|].
    + rewrite derive_status_missing by done.
      rewrite (Hsome (λ s, Core.T_missing cfg ≤ now - s)%Z).
      split; [by right|]. by intros [?|?].
    + simpl. split; [by left|done].
  - done.
  - done.
  - intros store tag a. rewrite sweepStatuses_lookup.
    destruct (store !! tag) as [b|]; simpl; [|done].
    intros [= <-]. by rewrite refresh_status, refresh_last_seen.
Qed.

Lemma derive_status_spec_witness :
  (Core.T_active thresholds_10_30 < Core.T_missing thresholds_10_30)%Z ∧
  (Core.derive_status thresholds_10_30 15 (Some 0%Z) = Core.idle ↔
     ∃ seen, Some 0%Z = Some seen ∧
             (Core.T_active thresholds_10_30 ≤ 15 - seen
              < Core.T_missing thresholds_10_30)%Z).
Proof.
  assert (Core.T_active thresholds_10_30 < Core.T_missing thresholds_10_30)%Z
    as Hcfg by (simpl; lia).
  split; [exact Hcfg|].
  exact (proj1 (proj2 (derive_status_spec thresholds_10_30 15%Z (Some 0%Z) Hcfg))).
Defined.

(** ** Monotone decay *)

(** C5. With [last_seen] fixed, the status derived at a later time is never
    less severe than the one derived at an earlier time, in the order
    active, idle, missing; and a step from active straight to missing takes
    longer than the whole idle window [T_missing - T_active]. *)
Theorem derive_status_monotone (cfg : Core.Thresholds)
    (last_seen : option Core.Timestamp) (t1 t2 : Core.Timestamp) :
  (t1 ≤ t2)%Z →
  (Core.severity (Core.derive_status cfg t1 last_seen)
   ≤ Core.severity (Core.derive_status cfg t2 last_seen))%nat ∧
  (Core.derive_status cfg t2 last_seen = Core.active →
   Core.derive_status cfg t1 last_seen = Core.active) ∧
  (Core.derive_status cfg t1 last_seen = Core.missing →
   Core.derive_status cfg t2 last_seen = Core.missing) ∧
  (Core.derive_status cfg t1 last_seen = Core.active →
   Core.derive_status cfg t2 last_seen = Core.missing →
   (Core.T_missing cfg - Core.T_active cfg < t2 - t1)%Z).
Proof.
  intros Hle. destruct last_seen as [seen|]; [|done].
  unfold Core.derive_status.
  repeat case_decide; simpl; split_and!; intros; (done || lia).
Qed.

Lemma derive_status_monotone_witness :
  (5 ≤ 35)%Z ∧
  (Core.severity (Core.derive_status thresholds_10_30 5 (Some 0%Z))
   ≤ Core.severity (Core.derive_status thresholds_10_30 35 (Some 0%Z)))%nat.
Proof.
  assert (5 ≤ 35)%Z as Hle by lia.
  split; [exact Hle|].
  exact (proj1 (derive_status_monotone thresholds_10_30 (Some 0%Z) 5%Z 35%Z Hle)).
Defined.

(** End-to-end scenario 2: scanned at t = 0, the asset is active at 5 s,
    idle at 15 s and missing at 35 s. *)
Example derive_status_scenario :
  Core.derive_status thresholds_10_30 5 (Some 0%Z) = Core.active ∧
  Core.derive_status thresholds_10_30 15 (Some 0%Z) = Core.idle ∧
  Core.derive_status thresholds_10_30 35 (Some 0%Z) = Core.missing.
Proof. done. Qed.

(** ** Reconciliation *)

Lemma refresh_not_stale cfg now a :
  Core.stale cfg now (Core.refresh cfg now a) = false.
Proof.
  unfold Core.stale. apply bool_decide_eq_false. intros Hne. apply Hne.
  by rewrite refresh_status, refresh_last_seen.
Qed.

Lemma refresh_idempotent cfg now a :
  Core.refresh cfg now (Core.refresh cfg now a) = Core.refresh cfg now a.
Proof.
  unfold Core.refresh at 1. by rewrite refresh_not_stale.
Qed.

Lemma omap_none {A B} (f : A → option B) (l : list A) :
  Forall (λ x, f x = None) l → omap f l = [].
Proof.
  induction 1 as [|x l Hx _ IH]; [done|]. simpl. by rewrite Hx.
Qed.

Lemma transition_of_Some cfg now a t :
  Core.transition_of cfg now a = Some t ↔
  Core.status a ≠ Core.derive_status cfg now (Core.last_seen a) ∧
  t = {| Core.asset_id := Core.id a;
         Core.old_status := Core.status a;
         Core.new_status := Core.derive_status cfg now (Core.last_seen a) |}.
Proof.
  unfold Core.transition_of, Core.stale. case_bool_decide as Hs.
  - split; [by intros [= <-]|]. by intros [_ ->].
  - split; [done|]. by intros [? _].
Qed.

Lemma sweepStatuses_transitions cfg now (store : gmap string Core.Asset) t :
  t ∈ (Core.sweepStatuses cfg now store).2 ↔
  ∃ tag a, store !! tag = Some a ∧ Core.transition_of cfg now a = Some t.
Proof.
  unfold Core.sweepStatuses. simpl. rewrite list_elem_of_omap. split.
  - intros (a & Hin & Ht).
    apply list_elem_of_fmap in Hin as ([tag b] & -> & Hin).
    apply elem_of_map_to_list in Hin. eauto.
  - intros (tag & a & Hlook & Ht). exists a. split; [|done].
    apply list_elem_of_fmap. exists (tag, a). split; [done|].
    by apply elem_of_map_to_list.
Qed.

(** C4. Sweeping twice at the same [now], with nothing applied in between,
    leaves the swept store as it is and reports no Transition the second
    time; and every Transition a sweep reports belongs to a stored asset
    whose status the sweep changed, from [old_status] to a different
    [new_status]. *)
Theorem sweepStatuses_idempotent (cfg : Core.Thresholds) (now : Core.Timestamp)
    (store : gmap string Core.Asset) :
  let swept := (Core.sweepStatuses cfg now store).1 in
  Core.sweepStatuses cfg now swept = (swept, []) ∧
  (∀ t, t ∈ (Core.sweepStatuses cfg now store).2 →
        Core.old_status t ≠ Core.new_status t ∧
        ∃ tag before after,
          store !! tag = Some before ∧ swept !! tag = Some after ∧
          Core.asset_id t = Core.id before ∧
          Core.old_status t = Core.status before ∧
          Core.new_status t = Core.status after ∧
          Core.status before ≠ Core.status after).
Proof.
  intros swept. split.
  - unfold Core.sweepStatuses at 1. f_equal.
    + subst swept. unfold Core.sweepStatuses. simpl.
      rewrite <- map_fmap_compose. apply map_fmap_ext.
      intros tag a _. apply refresh_idempotent.
    + apply omap_none, Forall_forall. intros a Hin.
      apply list_elem_of_fmap in Hin as ([tag b] & -> & Hin).
      apply elem_of_map_to_list in Hin. simpl.
      subst swept. rewrite sweepStatuses_lookup in Hin.
      destruct (store !! tag) as [c|]; simpl in Hin; [|done].
      injection Hin as <-.
      unfold Core.transition_of. by rewrite refresh_not_stale.
  - intros t (tag & a & Hlook & (Hne & ->)%transition_of_Some)%sweepStatuses_transitions.
    simpl. split; [done|].
    exists tag, a, (Core.refresh cfg now a). split_and!; try done.
    + subst swept. by rewrite sweepStatuses_lookup, Hlook.
    + by rewrite refresh_status.
    + by rewrite refresh_status.
Qed.

(** Conversely, a sweep reports every asset whose status it changes. *)
Lemma sweepStatuses_reports_changes cfg now (store : gmap string Core.Asset) tag a :
  store !! tag = Some a →
  Core.status a ≠ Core.derive_status cfg now (Core.last_seen a) →
  {| Core.asset_id := Core.id a;
     Core.old_status := Core.status a;
     Core.new_status := Core.derive_status cfg now (Core.last_seen a) |}
  ∈ (Core.sweepStatuses cfg now store).2.
Proof.
  intros Hlook Hne. apply sweepStatuses_transitions. exists tag, a.
  split; [done|]. by apply transition_of_Some.
Qed.

(** End-to-end scenario 2 through the store: RF002, scanned at t = 0, is
    swept at 5 s, 15 s and 35 s. *)
Example sweepStatuses_scenario :
  let s5 := Core.sweepStatuses thresholds_10_30 5 core_fleet in
  let s15 := Core.sweepStatuses thresholds_10_30 15 s5.1 in
  let s35 := Core.sweepStatuses thresholds_10_30 35 s15.1 in
  s5.2 = [] ∧
  s15.2 = [ {| Core.asset_id := 2; Core.old_status := Core.active;
               Core.new_status := Core.idle |} ] ∧
  s35.2 = [ {| Core.asset_id := 2; Core.old_status := Core.idle;
               Core.new_status := Core.missing |} ] ∧
  Core.status <$> s35.1 !! "RF002" = Some Core.missing ∧
  (Core.sweepStatuses thresholds_10_30 35 s35.1).2 = [].
Proof. vm_compute. done. Qed.

(** ** The normalizer *)

Lemma required_Some field s :
  Core.required field = Some s ↔ field = Some s ∧ s ≠ "".
Proof.
  unfold Core.required. destruct field as [s'|].
  - case_decide as Hs; split.
    + done.
    + intros [[= ->] ?]. done.
    + intros [= ->]. done.
    + intros [[= ->] _]. done.
  - split; [done|]. by intros [? _].
Qed.

Lemma normalize_Ok clock raw ev :
  Core.normalize clock raw = Core.Ok ev ↔
  Core.required (Core.raw_tag_id raw) = Some (Core.ev_tag_id ev) ∧
  Core.required (Core.raw_location raw) = Some (Core.ev_location ev) ∧
  Core.ev_timestamp ev = clock ∧
  Core.ev_rssi ev = Core.raw_rssi raw.
Proof.
  unfold Core.normalize.
  destruct (Core.required (Core.raw_tag_id raw)) as [tag|],
           (Core.required (Core.raw_location raw)) as [loc|];
    destruct ev as [t l c r]; simpl; split;
    try (intros [= <- <- <- <-]; done); try (intros ([= <-] & [= <-] & <- & <-); done);
    try (by intros (? & ? & _)); done.
Qed.

Lemma normalize_Err clock raw e :
  Core.normalize clock raw = Core.Err e →
  e = Core.InvalidEvent ∧
  (Core.required (Core.raw_tag_id raw) = None ∨
   Core.required (Core.raw_location raw) = None).
Proof.
  unfold Core.normalize.
  destruct (Core.required (Core.raw_tag_id raw)) as [tag|],
           (Core.required (Core.raw_location raw)) as [loc|];
    intros [= <-]; auto.
Qed.

(** C6. The normalizer yields a ScanEvent exactly when [tag_id] and
    [location] are both present and non-empty, and fails with [InvalidEvent]
    otherwise.  The event's timestamp is the clock reading, whatever time
    the caller claims; the form's submission claims none, as its body has
    only the two fields. *)
Theorem normalize_spec (clock : Core.Timestamp) (raw : Core.RawEvent) :
  ((∃ ev, Core.normalize clock raw = Core.Ok ev) ↔ well_formed raw) ∧
  (Core.normalize clock raw = Core.Err Core.InvalidEvent ↔ ¬ well_formed raw) ∧
  (∀ ev, Core.normalize clock raw = Core.Ok ev →
         Core.ev_timestamp ev = clock ∧
         Core.raw_tag_id raw = Some (Core.ev_tag_id ev) ∧
         Core.raw_location raw = Some (Core.ev_location ev)) ∧
  (∀ claimed, Core.normalize clock (claiming claimed raw)
              = Core.normalize clock raw) ∧
  (∀ form, Core.raw_claimed_time
             (Core.raw_of_submission (ManualScanForm.body form)) = None).
Proof.
  assert ((∃ ev, Core.normalize clock raw = Core.Ok ev) ↔ well_formed raw)
    as Hok.
  { split.
    - intros (ev & (Htag & Hloc & _)%normalize_Ok).
      apply required_Some in Htag as [Htag ?], Hloc as [Hloc ?].
      by exists (Core.ev_tag_id ev), (Core.ev_location ev).
    - intros (tag & loc & Htag & ? & Hloc & ?).
      exists {| Core.ev_tag_id := tag; Core.ev_location := loc;
                Core.ev_timestamp := clock;
                Core.ev_rssi := Core.raw_rssi raw |}.
      apply normalize_Ok. simpl. by rewrite !required_Some. }
  split_and!.
  - exact Hok.
  - rewrite <- Hok. split.
    + intros Herr (ev & Hev). by rewrite Herr in Hev.
    + intros Hnot. destruct (Core.normalize clock raw) as [ev|e] eqn:Hn.
      * destruct Hnot. eauto.
      * by apply normalize_Err in Hn as [-> _].
  - intros ev (Htag & Hloc & Hclock & _)%normalize_Ok.
    apply required_Some in Htag as [Htag _], Hloc as [Hloc _]. done.
  - done.
  - done.
Qed.

Example normalize_submission :
  Core.normalize 42
    (Core.raw_of_submission
       {| ManualScanForm.tag_id := "RF001"; ManualScanForm.location := "Office" |})
  = Core.Ok (core_scan "RF001" "Office" 42).
Proof. reflexivity. Qed.

Example normalize_empty_location :
  Core.normalize 42
    {| Core.raw_tag_id := Some "RF001"; Core.raw_location := Some "";
       Core.raw_claimed_time := Some 7%Z; Core.raw_rssi := None |}
  = Core.Err Core.InvalidEvent.
Proof. reflexivity. Qed.

Example normalize_ignores_claimed_time :
  Core.normalize 42
    {| Core.raw_tag_id := Some "RF001"; Core.raw_location := Some "Office";
       Core.raw_claimed_time := Some 7%Z; Core.raw_rssi := None |}
  = Core.Ok (core_scan "RF001" "Office" 42).
Proof. reflexivity. Qed.

(** ** Formatting a missing timestamp *)

Lemma format_or_falsy {Date} (parseISO : string → Date) format fallback pattern ts :
  Js.truthy_string ts = false →
  Format.format_or parseISO format fallback pattern ts = Js.Returned fallback.
Proof. intros Hf. unfold Format.format_or. rewrite Hf. by destruct ts. Qed.

Lemma format_or_truthy {Date} (parseISO : string → Date) format fallback pattern s :
  s ≠ "" →
  Format.format_or parseISO format fallback pattern (Some s)
  = format (parseISO s) pattern.
Proof.
  intros Hs. unfold Format.format_or. simpl.
  destruct (String.eqb_spec s ""); done.
Qed.

Lemma truthy_string_false ts :
  Js.truthy_string ts = false ↔ ts = None ∨ ts = Some "".
Proof.
  destruct ts as [s|]; simpl.
  - rewrite negb_false_iff, String.eqb_eq. split; [by intros ->; right|].
    by intros [?|[= ->]].
  - split; [by left|done].
Qed.

(** C9. On a null or empty timestamp, [formatTime] and [formatDate] return
    "N/A" and [formatLastSeen] returns "Never", whatever the date library
    would do: neither [parseISO] nor [format] is reached. *)
Theorem format_missing_timestamp {Date : Type} (parseISO : string → Date)
    (format : Date → string → Js.outcome string) (timestamp : option string) :
  timestamp = None ∨ timestamp = Some "" →
  Format.formatTime parseISO format timestamp = Js.Returned "N/A" ∧
  Format.formatDate parseISO format timestamp = Js.Returned "N/A" ∧
  Format.formatLastSeen parseISO format timestamp = Js.Returned "Never".
Proof.
  intros Hfalsy%truthy_string_false.
  unfold Format.formatTime, Format.formatDate, Format.formatLastSeen.
  by rewrite !format_or_falsy.
Qed.

Lemma format_missing_timestamp_witness :
  (Some "" = None ∨ Some "" = Some "") ∧
  Format.formatTime (λ _, tt) throwing_format (Some "") = Js.Returned "N/A" ∧
  Format.formatDate (λ _, tt) throwing_format (Some "") = Js.Returned "N/A" ∧
  Format.formatLastSeen (λ _, tt) throwing_format (Some "") = Js.Returned "Never".
Proof.
  assert (Some "" = None ∨ Some "" = Some "") as H by (right; reflexivity).
  split; [exact H|].
  exact (format_missing_timestamp (λ _, tt) throwing_format (Some "") H).
Defined.

(** With a timestamp to format, the helpers do call the date library, and
    its exception is theirs. *)
Example formatTime_calls_format :
  Format.formatTime (λ _, tt) throwing_format (Some "not a date")
  = Js.Thrown "RangeError: Invalid time value" ∧
  Format.formatTime (λ _, tt) throwing_format None = Js.Returned "N/A" ∧
  Format.formatLastSeen (λ _, tt) throwing_format None = Js.Returned "Never".
Proof. done. Qed.

(** ** Signal strength *)

Lemma truthy_number_nonzero rssi :
  Js.from_json rssi = true →
  Js.truthy_number rssi = true ↔ nonzero_reading rssi.
Proof.
  unfold nonzero_reading. destruct rssi as [r|]; simpl.
  - rewrite negb_true_iff. intros Hnan. rewrite Hnan, orb_false_r, negb_true_iff.
    split; [eauto|]. by intros (? & [= <-] & ?).
  - intros _. split; [done|]. by intros (? & ? & _).
Qed.

Lemma append_dBm_not_NA s : s ++ " dBm" ≠ "N/A".
Proof.
  destruct s as [|a [|b [|c [|d s]]]]; simpl; discriminate.
Qed.

(** C10. For a reading decoded from JSON, the signal-strength paragraph of
    the scan list is rendered, and the history cell shows a value instead of
    "N/A", if and only if [rssi] is present and not zero; a reading of 0
    renders exactly as an absent one does. *)
Theorem rssi_rendered_iff_nonzero (number_to_string : Js.number → string)
    (event : ScanEvent.t) (scan : Signal.Scan) :
  Js.from_json (ScanEvent.rssi event) = true →
  Js.from_json (Signal.scan_rssi scan) = true →
  (is_Some (Signal.signal_line number_to_string event)
     ↔ nonzero_reading (ScanEvent.rssi event)) ∧
  (Signal.signal_cell number_to_string scan ≠ "N/A"
     ↔ nonzero_reading (Signal.scan_rssi scan)) ∧
  Signal.signal_line number_to_string (with_rssi (Some 0%float) event)
    = Signal.signal_line number_to_string (with_rssi None event) ∧
  Signal.signal_line number_to_string (with_rssi None event) = None ∧
  Signal.signal_cell number_to_string (history_row (Some 0%float))
    = Signal.signal_cell number_to_string (history_row None) ∧
  Signal.signal_cell number_to_string (history_row None) = "N/A".
Proof.
  intros Hev Hscan. split_and!; try done.
  - rewrite <- (truthy_number_nonzero _ Hev). unfold Signal.signal_line.
    destruct (ScanEvent.rssi event) as [r|]; simpl.
    + destruct (negb _); split; intros H; (done || by apply is_Some_None in H).
    + split; intros H; (done || by apply is_Some_None in H).
  - rewrite <- (truthy_number_nonzero _ Hscan). unfold Signal.signal_cell.
    destruct (Signal.scan_rssi scan) as [r|]; simpl.
    + destruct (negb _); split; intros H; (done || apply append_dBm_not_NA).
    + split; intros H; done.
Qed.

Lemma rssi_rendered_iff_nonzero_witness :
  Js.from_json (ScanEvent.rssi office_scan) = true ∧
  Js.from_json (Signal.scan_rssi (history_row (Some 0%float))) = true ∧
  (is_Some (Signal.signal_line (λ _, "-45") office_scan)
     ↔ nonzero_reading (ScanEvent.rssi office_scan)) ∧
  (Signal.signal_cell (λ _, "-45") (history_row (Some 0%float)) ≠ "N/A"
     ↔ nonzero_reading (Signal.scan_rssi (history_row (Some 0%float)))).
Proof.
  assert (Js.from_json (ScanEvent.rssi office_scan) = true) as H1
    by reflexivity.
  assert (Js.from_json (Signal.scan_rssi (history_row (Some 0%float))) = true)
    as H2 by reflexivity.
  pose proof (rssi_rendered_iff_nonzero (λ _, "-45") office_scan
                (history_row (Some 0%float)) H1 H2) as (Ha & Hb & _).
  split_and!; [exact H1 | exact H2 | exact Ha | exact Hb].
Defined.

Example signal_line_office_scan :
  Signal.signal_line (λ _, "-45") office_scan
  = Some "Signal strength: -45 dBm".
Proof. reflexivity. Qed.

Example signal_zero_reading :
  Signal.signal_line (λ _, "0") (with_rssi (Some 0%float) office_scan) = None ∧
  Signal.signal_line (λ _, "0") (with_rssi (Some (-0)%float) office_scan) = None ∧
  Signal.signal_cell (λ _, "0") (history_row (Some 0%float)) = "N/A" ∧
  Signal.signal_cell (λ _, "-45") (history_row (Some (-45)%float)) = "-45 dBm".
Proof. done. Qed.

(** [NaN] is the one reading outside JSON's range, and it is falsy too. *)
Example signal_nan_reading :
  Js.from_json (Some nan) = false ∧
  Signal.signal_line (λ _, "NaN") (with_rssi (Some nan) office_scan) = None.
Proof. done. Qed.

(** * Further properties of the dashboard *)

(** ** What a scan never touches *)

Lemma mark_seen_identity ev a : identity (Dashboard.mark_seen ev a) = identity a.
Proof. reflexivity. Qed.

Lemma mark_seen_absorbs ev ev' a :
  Dashboard.mark_seen ev (Dashboard.mark_seen ev' a) = Dashboard.mark_seen ev a.
Proof. reflexivity. Qed.

Lemma handleScanEvent_filter ev st :
  Dashboard.filter (Dashboard.handleScanEvent ev st) = Dashboard.filter st.
Proof.
  unfold Dashboard.handleScanEvent.
  by destruct (Dashboard.find_by_tag _ _) as [[i a]|].
Qed.

Lemma handleScanEvent_assets_not_found ev st :
  Dashboard.find_by_tag (ScanEvent.tag_id ev) (Dashboard.assets st) = None →
  Dashboard.assets (Dashboard.handleScanEvent ev st) = Dashboard.assets st.
Proof. intros Hfind. unfold Dashboard.handleScanEvent. by rewrite Hfind. Qed.

Lemma handleScanEvent_identity ev st :
  identity <$> Dashboard.assets (Dashboard.handleScanEvent ev st)
  = identity <$> Dashboard.assets st.
Proof.
  destruct (Dashboard.find_by_tag (ScanEvent.tag_id ev) (Dashboard.assets st))
    as [[i a]|] eqn:Hfind.
  - rewrite (handleScanEvent_assets_found _ _ _ _ Hfind).
    apply find_by_tag_Some in Hfind as (Hi & _ & _).
    rewrite list_fmap_insert, mark_seen_identity.
    apply list_insert_id. by rewrite list_lookup_fmap, Hi.
  - by rewrite handleScanEvent_assets_not_found.
Qed.

Lemma run_snoc evs ev st :
  run (evs ++ [ev]) st = Dashboard.handleScanEvent ev (run evs st).
Proof. unfold run. by rewrite foldl_app. Qed.

Lemma run_cons ev evs st :
  run (ev :: evs) st = run evs (Dashboard.handleScanEvent ev st).
Proof. reflexivity. Qed.

Lemma run_identity evs st :
  identity <$> Dashboard.assets (run evs st) = identity <$> Dashboard.assets st.
Proof.
  revert st. induction evs as [|ev evs IH]; intros st; [done|].
  rewrite run_cons, IH. apply handleScanEvent_identity.
Qed.

Lemma run_filter evs st : Dashboard.filter (run evs st) = Dashboard.filter st.
Proof.
  revert st. induction evs as [|ev evs IH]; intros st; [done|].
  rewrite run_cons, IH. apply handleScanEvent_filter.
Qed.

Lemma known_tag_identity (l l' : list Asset.t) tag :
  identity <$> l = identity <$> l' → known_tag tag l → known_tag tag l'.
Proof.
  intros Heq (a & Hin & Htag).
  apply list_elem_of_lookup in Hin as [i Hi].
  assert ((identity <$> l') !! i = Some (identity a)) as Hi'.
  { by rewrite <- Heq, list_lookup_fmap, Hi. }
  rewrite list_lookup_fmap in Hi'.
  destruct (l' !! i) as [b|] eqn:Hb; [|done].
  assert (Asset.tag_id b = Asset.tag_id a) as Ht
    by (unfold identity in Hi'; simpl in Hi'; congruence).
  exists b. split; [|by rewrite Ht].
  apply list_elem_of_lookup. eauto.
Qed.

Lemma tags_of_identity (l l' : list Asset.t) :
  identity <$> l = identity <$> l' → Asset.tag_id <$> l = Asset.tag_id <$> l'.
Proof.
  intros Heq.
  assert (∀ k : list Asset.t,
            Asset.tag_id <$> k = (λ x, x.1.1.1.2) <$> (identity <$> k)) as Hk.
  { intros k. rewrite <- list_fmap_compose. by apply list_fmap_ext. }
  by rewrite (Hk l), (Hk l'), Heq.
Qed.

(** X1. Along any run of scan events the asset list keeps its length and
    every asset keeps its id, tag, name, description and type, position by
    position; the set of known tags and the status filter never change. *)
Theorem run_preserves_identity (evs : list ScanEvent.t) (st : Dashboard.State) :
  identity <$> Dashboard.assets (run evs st) = identity <$> Dashboard.assets st ∧
  length (Dashboard.assets (run evs st)) = length (Dashboard.assets st) ∧
  Dashboard.filter (run evs st) = Dashboard.filter st ∧
  (∀ tag, known_tag tag (Dashboard.assets (run evs st))
          ↔ known_tag tag (Dashboard.assets st)).
Proof.
  pose proof (run_identity evs st) as Hid. split_and!.
  - exact Hid.
  - by rewrite <- (length_fmap identity), Hid, length_fmap.
  - apply run_filter.
  - intros tag. split; by apply known_tag_identity.
Qed.

(** ** How scans compose *)

(** Which position [find] selects depends on the tags only, so overwriting
    an asset by one with the same tag does not move it. *)
Lemma find_by_tag_insert tag (l : list Asset.t) j b y :
  l !! j = Some b → Asset.tag_id y = Asset.tag_id b →
  Dashboard.find_by_tag tag (<[j := y]> l)
  = (λ '(i, a), (i, if decide (i = j) then y else a))
      <$> Dashboard.find_by_tag tag l.
Proof.
  intros Hj Hy.
  assert (j < length l) as Hlt by by eapply lookup_lt_Some.
  destruct (Dashboard.find_by_tag tag l) as [[i a]|] eqn:Hfind; simpl.
  - apply find_by_tag_Some in Hfind as (Hi & Htag & Hfirst).
    apply find_by_tag_Some. split_and!.
    + case_decide as Hij.
      * subst i. by apply list_lookup_insert_eq.
      * by rewrite list_lookup_insert_ne.
    + case_decide as Hij; [|done]. subst i.
      rewrite Hy. by rewrite Hi in Hj; injection Hj as <-.
    + intros k c Hk Hki.
      destruct (decide (k = j)) as [->|Hkj].
      * rewrite list_lookup_insert_eq in Hk by done. injection Hk as <-.
        rewrite Hy. by apply (Hfirst j b).
      * rewrite list_lookup_insert_ne in Hk by done. by apply (Hfirst k c).
  - rewrite find_by_tag_None in Hfind. apply find_by_tag_None.
    intros c [k Hk]%list_elem_of_lookup.
    destruct (decide (k = j)) as [->|Hkj].
    + rewrite list_lookup_insert_eq in Hk by done. injection Hk as <-.
      rewrite Hy. apply Hfind. apply list_elem_of_lookup. eauto.
    + rewrite list_lookup_insert_ne in Hk by done.
      apply Hfind. apply list_elem_of_lookup. eauto.
Qed.

Lemma handleScanEvent_assets_ext ev st st' :
  Dashboard.assets st = Dashboard.assets st' →
  Dashboard.assets (Dashboard.handleScanEvent ev st)
  = Dashboard.assets (Dashboard.handleScanEvent ev st').
Proof.
  intros Heq. unfold Dashboard.handleScanEvent. rewrite Heq.
  by destruct (Dashboard.find_by_tag _ _) as [[i a]|].
Qed.

Lemma handleScanEvent_same_tag_assets ev1 ev2 st :
  ScanEvent.tag_id ev1 = ScanEvent.tag_id ev2 →
  Dashboard.assets (Dashboard.handleScanEvent ev2 (Dashboard.handleScanEvent ev1 st))
  = Dashboard.assets (Dashboard.handleScanEvent ev2 st).
Proof.
  intros Htag.
  destruct (Dashboard.find_by_tag (ScanEvent.tag_id ev1) (Dashboard.assets st))
    as [[i a]|] eqn:Hfind.
  - pose proof Hfind as (Hi & _ & _)%find_by_tag_Some.
    assert (Dashboard.find_by_tag (ScanEvent.tag_id ev2)
              (Dashboard.assets (Dashboard.handleScanEvent ev1 st))
            = Some (i, Dashboard.mark_seen ev1 a)) as Hfind'.
    { rewrite (handleScanEvent_assets_found _ _ _ _ Hfind).
      rewrite (find_by_tag_insert _ _ i a) by done.
      rewrite <- Htag, Hfind. simpl. by rewrite decide_True. }
    rewrite (handleScanEvent_assets_found _ _ _ _ Hfind').
    rewrite (handleScanEvent_assets_found _ _ _ _ Hfind).
    rewrite Htag in Hfind.
    rewrite (handleScanEvent_assets_found _ _ _ _ Hfind).
    by rewrite list_insert_insert_eq, mark_seen_absorbs.
  - apply handleScanEvent_assets_ext.
    by apply handleScanEvent_assets_not_found.
Qed.

(** X2. When two scan events carry the same tag, the later one wins: the
    assets after both are the assets after the later one alone, while both
    events are listed among the recent scans.  In particular a scan that is
    handled twice (once as the form's callback, once when the same event
    arrives on the socket) changes the assets once. *)
Theorem handleScanEvent_last_wins (ev1 ev2 : ScanEvent.t) (st : Dashboard.State) :
  ScanEvent.tag_id ev1 = ScanEvent.tag_id ev2 →
  Dashboard.assets (Dashboard.handleScanEvent ev2 (Dashboard.handleScanEvent ev1 st))
  = Dashboard.assets (Dashboard.handleScanEvent ev2 st) ∧
  Dashboard.assets (Dashboard.handleScanEvent ev2 (Dashboard.handleScanEvent ev2 st))
  = Dashboard.assets (Dashboard.handleScanEvent ev2 st) ∧
  Dashboard.recentScans
    (Dashboard.handleScanEvent ev2 (Dashboard.handleScanEvent ev1 st))
  = ev2 :: ev1 :: take 3 (Dashboard.recentScans st).
Proof.
  intros Htag. split_and!.
  - by apply handleScanEvent_same_tag_assets.
  - by apply handleScanEvent_same_tag_assets.
  - rewrite !handleScanEvent_recentScans. simpl. by rewrite take_take.
Qed.

Lemma handleScanEvent_last_wins_witness :
  ScanEvent.tag_id office_scan = ScanEvent.tag_id kitchen_scan ∧
  Dashboard.assets
    (Dashboard.handleScanEvent kitchen_scan
       (Dashboard.handleScanEvent office_scan fleet))
  = Dashboard.assets (Dashboard.handleScanEvent kitchen_scan fleet).
Proof.
  assert (ScanEvent.tag_id office_scan = ScanEvent.tag_id kitchen_scan)
    as H by reflexivity.
  split; [exact H|].
  exact (proj1 (handleScanEvent_last_wins office_scan kitchen_scan fleet H)).
Defined.

Example handleScanEvent_twice_on_the_laptop :
  Dashboard.assets
    (Dashboard.handleScanEvent kitchen_scan
       (Dashboard.handleScanEvent office_scan fleet))
  = [Dashboard.mark_seen kitchen_scan laptop; chair; projector].
Proof. reflexivity. Qed.

Lemma handleScanEvent_after_other ev1 ev2 st i a :
  Dashboard.find_by_tag (ScanEvent.tag_id ev1) (Dashboard.assets st) = Some (i, a) →
  ScanEvent.tag_id ev1 ≠ ScanEvent.tag_id ev2 →
  Dashboard.assets (Dashboard.handleScanEvent ev2 (Dashboard.handleScanEvent ev1 st))
  = <[i := Dashboard.mark_seen ev1 a]>
      (Dashboard.assets (Dashboard.handleScanEvent ev2 st)).
Proof.
  intros Hfind Hne.
  pose proof Hfind as (Hi & Htag & _)%find_by_tag_Some.
  pose proof (find_by_tag_insert (ScanEvent.tag_id ev2) (Dashboard.assets st)
                i a (Dashboard.mark_seen ev1 a) Hi eq_refl) as Hafter.
  rewrite <- (handleScanEvent_assets_found _ _ _ _ Hfind) in Hafter.
  destruct (Dashboard.find_by_tag (ScanEvent.tag_id ev2) (Dashboard.assets st))
    as [[i2 a2]|] eqn:Hfind2; simpl in Hafter.
  - pose proof Hfind2 as (Hi2 & Htag2 & _)%find_by_tag_Some.
    assert (i2 ≠ i) as Hii.
    { intros ->. rewrite Hi in Hi2. injection Hi2 as ->. congruence. }
    rewrite decide_False in Hafter by done.
    rewrite (handleScanEvent_assets_found _ _ _ _ Hafter).
    rewrite (handleScanEvent_assets_found _ _ _ _ Hfind).
    rewrite (handleScanEvent_assets_found _ _ _ _ Hfind2).
    by apply list_insert_insert_ne.
  - rewrite (handleScanEvent_assets_not_found _ _ Hafter).
    rewrite (handleScanEvent_assets_not_found _ _ Hfind2).
    by apply handleScanEvent_assets_found.
Qed.

(** X3. Scan events for different tags commute on the assets: handling them
    in either order leaves the same asset list (the recent-scans list keeps
    the order of arrival). *)
Theorem handleScanEvent_commute (ev1 ev2 : ScanEvent.t) (st : Dashboard.State) :
  ScanEvent.tag_id ev1 ≠ ScanEvent.tag_id ev2 →
  Dashboard.assets (Dashboard.handleScanEvent ev2 (Dashboard.handleScanEvent ev1 st))
  = Dashboard.assets (Dashboard.handleScanEvent ev1 (Dashboard.handleScanEvent ev2 st)).
Proof.
  intros Hne.
  destruct (Dashboard.find_by_tag (ScanEvent.tag_id ev1) (Dashboard.assets st))
    as [[i1 a1]|] eqn:Hfind1;
  destruct (Dashboard.find_by_tag (ScanEvent.tag_id ev2) (Dashboard.assets st))
    as [[i2 a2]|] eqn:Hfind2.
  - rewrite (handleScanEvent_after_other ev1 ev2 st i1 a1) by done.
    rewrite (handleScanEvent_after_other ev2 ev1 st i2 a2) by done.
    rewrite (handleScanEvent_assets_found _ _ _ _ Hfind1).
    rewrite (handleScanEvent_assets_found _ _ _ _ Hfind2).
    apply list_insert_insert_ne.
    pose proof Hfind1 as (Hi1 & Htag1 & _)%find_by_tag_Some.
    pose proof Hfind2 as (Hi2 & Htag2 & _)%find_by_tag_Some.
    intros ->. rewrite Hi1 in Hi2. injection Hi2 as ->. congruence.
  - rewrite (handleScanEvent_after_other ev1 ev2 st i1 a1) by done.
    rewrite (handleScanEvent_assets_not_found _ _ Hfind2).
    rewrite <- (handleScanEvent_assets_found _ _ _ _ Hfind1).
    apply handleScanEvent_assets_ext.
    symmetry. by apply handleScanEvent_assets_not_found.
  - rewrite (handleScanEvent_after_other ev2 ev1 st i2 a2) by done.
    rewrite (handleScanEvent_assets_not_found _ _ Hfind1).
    rewrite <- (handleScanEvent_assets_found _ _ _ _ Hfind2).
    apply handleScanEvent_assets_ext.
    by apply handleScanEvent_assets_not_found.
  - rewrite (handleScanEvent_assets_ext ev2 _ st)
      by by apply handleScanEvent_assets_not_found.
    rewrite (handleScanEvent_assets_ext ev1 _ st)
      by by apply handleScanEvent_assets_not_found.
    rewrite !handleScanEvent_assets_not_found; done.
Qed.

Lemma handleScanEvent_commute_witness :
  ScanEvent.tag_id office_scan ≠ ScanEvent.tag_id chair_scan ∧
  Dashboard.assets
    (Dashboard.handleScanEvent chair_scan
       (Dashboard.handleScanEvent office_scan fleet))
  = Dashboard.assets
      (Dashboard.handleScanEvent office_scan
         (Dashboard.handleScanEvent chair_scan fleet)).
Proof.
  assert (ScanEvent.tag_id office_scan ≠ ScanEvent.tag_id chair_scan)
    as H by discriminate.
  split; [exact H|].
  exact (handleScanEvent_commute office_scan chair_scan fleet H).
Defined.

(** ** The recent-scans buffer along a run *)

Lemma run_recentScans_eq (evs : list ScanEvent.t) (st : Dashboard.State) :
  evs ≠ [] →
  Dashboard.recentScans (run evs st)
  = take 5 (reverse evs ++ Dashboard.recentScans st).
Proof.
  induction evs as [|ev evs IH] using rev_ind; [done|]. intros _.
  rewrite run_snoc, handleScanEvent_recentScans, reverse_snoc. simpl.
  f_equal. destruct (decide (evs = [])) as [->|Hne]; [done|].
  rewrite IH by done. by rewrite take_take.
Qed.

(** X4. After a non-empty run of scan events the recent-scans list holds the
    newest events first: it is the first five entries of the run reversed
    followed by the old list.  Once five events were handled, nothing of the
    old list is left. *)
Theorem run_recentScans (evs : list ScanEvent.t) (st : Dashboard.State) :
  evs ≠ [] →
  Dashboard.recentScans (run evs st)
  = take 5 (reverse evs ++ Dashboard.recentScans st) ∧
  ((5 ≤ length evs)%nat →
   Dashboard.recentScans (run evs st) = take 5 (reverse evs)).
Proof.
  intros Hne. pose proof (run_recentScans_eq evs st Hne) as Hrun.
  split; [exact Hrun|].
  intros Hlen. rewrite Hrun. apply take_app_le. by rewrite length_reverse.
Qed.

Lemma run_recentScans_witness :
  [office_scan; stray_scan; kitchen_scan] ≠ [] ∧
  Dashboard.recentScans (run [office_scan; stray_scan; kitchen_scan] fleet)
  = [kitchen_scan; stray_scan; office_scan].
Proof.
  assert ([office_scan; stray_scan; kitchen_scan] ≠ []) as H by discriminate.
  split; [exact H|].
  exact (proj1 (run_recentScans [office_scan; stray_scan; kitchen_scan] fleet H)).
Defined.

(** ** The counters of the dashboard *)

Lemma count_insert {A} (P : A → Prop) `{!∀ x, Decision (P x)} (l : list A) i x y :
  l !! i = Some x →
  (length (base.filter P (<[i := y]> l)) + (if decide (P x) then 1 else 0)
   = length (base.filter P l) + (if decide (P y) then 1 else 0))%nat.
Proof.
  revert i. induction l as [|z l IH]; intros [|i] Hi; simplify_eq/=.
  - rewrite !filter_cons. repeat case_decide; simpl; lia.
  - specialize (IH i Hi). rewrite !filter_cons.
    destruct (decide (P z)); simpl; lia.
Qed.

Lemma count_status_scanned ev st i a status :
  Dashboard.find_by_tag (ScanEvent.tag_id ev) (Dashboard.assets st) = Some (i, a) →
  (DashboardPage.count_status status
     (Dashboard.assets (Dashboard.handleScanEvent ev st))
   + (if decide (Asset.status a = status) then 1 else 0)
   = DashboardPage.count_status status (Dashboard.assets st)
     + (if decide ("active" = status) then 1 else 0))%nat.
Proof.
  intros Hfind. rewrite (handleScanEvent_assets_found _ _ _ _ Hfind).
  apply find_by_tag_Some in Hfind as (Hi & _ & _).
  unfold DashboardPage.count_status.
  exact (count_insert (λ a, Asset.status a = status) _ i a
           (Dashboard.mark_seen ev a) Hi).
Qed.

(** X5. Handling a scan event never changes the total number of assets,
    never lowers the number of active assets nor raises it by more than one,
    and never raises the number of assets in any other status nor lowers it
    by more than one.  When the scanned asset had status [s] other than
    active, exactly one asset moves from [s] to active. *)
Theorem handleScanEvent_counters (ev : ScanEvent.t) (st : Dashboard.State) :
  let before := Dashboard.assets st in
  let after := Dashboard.assets (Dashboard.handleScanEvent ev st) in
  DashboardPage.totalAssets after = DashboardPage.totalAssets before ∧
  (DashboardPage.activeAssets before ≤ DashboardPage.activeAssets after
   ≤ DashboardPage.activeAssets before + 1)%nat ∧
  (DashboardPage.missingAssets after ≤ DashboardPage.missingAssets before
   ≤ DashboardPage.missingAssets after + 1)%nat ∧
  (∀ s, s ≠ "active" →
        (DashboardPage.count_status s after ≤ DashboardPage.count_status s before
         ≤ DashboardPage.count_status s after + 1)%nat) ∧
  (∀ i a s,
     Dashboard.find_by_tag (ScanEvent.tag_id ev) before = Some (i, a) →
     Asset.status a = s → s ≠ "active" →
     DashboardPage.activeAssets after = S (DashboardPage.activeAssets before) ∧
     S (DashboardPage.count_status s after) = DashboardPage.count_status s before).
Proof.
  intros before after. subst before after.
  assert (∀ s, s ≠ "active" →
            (DashboardPage.count_status s
               (Dashboard.assets (Dashboard.handleScanEvent ev st))
             ≤ DashboardPage.count_status s (Dashboard.assets st)
             ≤ DashboardPage.count_status s
                 (Dashboard.assets (Dashboard.handleScanEvent ev st)) + 1)%nat)
    as Hother.
  { intros s Hs.
    destruct (Dashboard.find_by_tag (ScanEvent.tag_id ev) (Dashboard.assets st))
      as [[i a]|] eqn:Hfind.
    - pose proof (count_status_scanned ev st i a s Hfind) as Hc.
      rewrite (decide_False (P := "active" = s)) in Hc by done.
      destruct (decide (Asset.status a = s)); lia.
    - rewrite (handleScanEvent_assets_not_found _ _ Hfind). lia. }
  split; [|split; [|split; [|split]]].
  - unfold DashboardPage.totalAssets.
    rewrite <- !(length_fmap identity). by rewrite handleScanEvent_identity.
  - unfold DashboardPage.activeAssets.
    destruct (Dashboard.find_by_tag (ScanEvent.tag_id ev) (Dashboard.assets st))
      as [[i a]|] eqn:Hfind.
    + pose proof (count_status_scanned ev st i a "active" Hfind) as Hc.
      rewrite (decide_True (P := "active" = "active")) in Hc by done.
      destruct (decide (Asset.status a = "active")); lia.
    + rewrite (handleScanEvent_assets_not_found _ _ Hfind). lia.
  - apply Hother. discriminate.
  - exact Hother.
  - intros i a s Hfind Hstatus Hs. unfold DashboardPage.activeAssets.
    pose proof (count_status_scanned ev st i a "active" Hfind) as Hc.
    pose proof (count_status_scanned ev st i a s Hfind) as Hc'.
    rewrite (decide_True (P := "active" = "active")) in Hc by done.
    rewrite (decide_False (P := Asset.status a = "active")) in Hc by congruence.
    rewrite (decide_True (P := Asset.status a = s)) in Hc' by done.
    rewrite (decide_False (P := "active" = s)) in Hc' by done.
    lia.
Qed.

Example counters_after_office_scan :
  DashboardPage.activeAssets (Dashboard.assets fleet) = 1%nat ∧
  DashboardPage.missingAssets (Dashboard.assets fleet) = 1%nat ∧
  DashboardPage.activeAssets
    (Dashboard.assets (Dashboard.handleScanEvent office_scan fleet)) = 2%nat ∧
  DashboardPage.missingAssets
    (Dashboard.assets (Dashboard.handleScanEvent office_scan fleet)) = 0%nat.
Proof. done. Qed.

(** ** Runs over a fleet with unique tags *)

Lemma handleScanEvent_unique_lookup ev st i a :
  unique_tags (Dashboard.assets st) →
  Dashboard.assets st !! i = Some a →
  Dashboard.assets (Dashboard.handleScanEvent ev st) !! i
  = Some (if decide (Asset.tag_id a = ScanEvent.tag_id ev)
          then Dashboard.mark_seen ev a else a).
Proof.
  intros Huniq Hi.
  destruct (Dashboard.find_by_tag (ScanEvent.tag_id ev) (Dashboard.assets st))
    as [[j b]|] eqn:Hfind.
  - rewrite (handleScanEvent_assets_found _ _ _ _ Hfind).
    apply find_by_tag_Some in Hfind as (Hj & Htag & _).
    destruct (decide (i = j)) as [->|Hij].
    + rewrite Hi in Hj. injection Hj as <-.
      rewrite decide_True by done.
      apply list_lookup_insert_eq. by eapply lookup_lt_Some.
    + rewrite list_lookup_insert_ne by done. rewrite Hi.
      rewrite decide_False; [done|]. intros Heq. apply Hij.
      apply (NoDup_lookup _ i j (ScanEvent.tag_id ev) Huniq);
        rewrite list_lookup_fmap.
      * by rewrite Hi; simpl; rewrite Heq.
      * by rewrite Hj; simpl; rewrite Htag.
  - rewrite (handleScanEvent_assets_not_found _ _ Hfind), Hi.
    rewrite find_by_tag_None in Hfind.
    rewrite decide_False; [done|]. apply Hfind.
    apply list_elem_of_lookup. eauto.
Qed.

Lemma last_scan_of_snoc tag evs ev :
  last_scan_of tag (evs ++ [ev])
  = if decide (ScanEvent.tag_id ev = tag) then Some ev else last_scan_of tag evs.
Proof.
  unfold last_scan_of. rewrite filter_app, filter_cons, filter_nil.
  case_decide.
  - apply last_snoc.
  - by rewrite app_nil_r.
Qed.

Lemma after_scans_tag evs a : Asset.tag_id (after_scans evs a) = Asset.tag_id a.
Proof. unfold after_scans. by destruct (last_scan_of _ _). Qed.

Lemma after_scans_snoc evs ev a :
  after_scans (evs ++ [ev]) a
  = if decide (Asset.tag_id a = ScanEvent.tag_id ev)
    then Dashboard.mark_seen ev (after_scans evs a) else after_scans evs a.
Proof.
  unfold after_scans. rewrite last_scan_of_snoc.
  destruct (decide (ScanEvent.tag_id ev = Asset.tag_id a)) as [Heq|Hne].
  - rewrite decide_True by done. by destruct (last_scan_of _ evs).
  - rewrite decide_False by done. done.
Qed.

Lemma unique_tags_run evs st :
  unique_tags (Dashboard.assets st) → unique_tags (Dashboard.assets (run evs st)).
Proof.
  unfold unique_tags. intros Huniq.
  by rewrite (tags_of_identity _ _ (run_identity evs st)).
Qed.

Lemma run_unique_lookup evs st i a :
  unique_tags (Dashboard.assets st) →
  Dashboard.assets st !! i = Some a →
  Dashboard.assets (run evs st) !! i = Some (after_scans evs a).
Proof.
  intros Huniq Hi. induction evs as [|ev evs IH] using rev_ind; [done|].
  rewrite run_snoc.
  rewrite (handleScanEvent_unique_lookup ev _ i (after_scans evs a));
    [|by apply unique_tags_run|done].
  by rewrite after_scans_snoc, after_scans_tag.
Qed.

(** X6. When tags are unique, a run of scan events acts on each asset
    separately: an asset whose tag no event carried is as before, and every
    other asset is active with the timestamp and location of the newest
    event that carried its tag, however the events were interleaved. *)
Theorem run_unique_tags (evs : list ScanEvent.t) (st : Dashboard.State) :
  unique_tags (Dashboard.assets st) →
  Dashboard.assets (run evs st) = after_scans evs <$> Dashboard.assets st ∧
  (∀ i a, Dashboard.assets st !! i = Some a →
          (∀ ev, ev ∈ evs → ScanEvent.tag_id ev ≠ Asset.tag_id a) →
          Dashboard.assets (run evs st) !! i = Some a) ∧
  (∀ i a (older newer : list ScanEvent.t) ev,
     Dashboard.assets st !! i = Some a →
     evs = (older ++ ev :: newer)%list →
     ScanEvent.tag_id ev = Asset.tag_id a →
     (∀ ev', ev' ∈ newer → ScanEvent.tag_id ev' ≠ Asset.tag_id a) →
     ∃ a', Dashboard.assets (run evs st) !! i = Some a' ∧ seen_as ev a a').
Proof.
  intros Huniq. split_and!.
  - apply list_eq. intros i. rewrite list_lookup_fmap.
    destruct (Dashboard.assets st !! i) as [a|] eqn:Hi; simpl.
    + by apply run_unique_lookup.
    + apply lookup_ge_None. apply lookup_ge_None in Hi.
      by rewrite <- (length_fmap identity), run_identity, length_fmap.
  - intros i a Hi Hnone. rewrite (run_unique_lookup _ _ _ _ Huniq Hi).
    f_equal. unfold after_scans, last_scan_of.
    replace (base.filter (λ ev, ScanEvent.tag_id ev = Asset.tag_id a) evs)
      with (@nil ScanEvent.t); [done|].
    symmetry. apply elem_of_nil_inv. intros ev [Htag Hin]%list_elem_of_filter.
    by apply (Hnone ev).
  - intros i a older newer ev Hi -> Htag Hnewer.
    exists (Dashboard.mark_seen ev a). split; [|apply mark_seen_seen_as].
    rewrite (run_unique_lookup _ _ _ _ Huniq Hi). f_equal.
    unfold after_scans, last_scan_of.
    rewrite filter_app, filter_cons_True by done.
    replace (base.filter (λ ev, ScanEvent.tag_id ev = Asset.tag_id a) newer)
      with (@nil ScanEvent.t).
    + by rewrite last_snoc.
    + symmetry. apply elem_of_nil_inv.
      intros ev' [Htag' Hin]%list_elem_of_filter. by apply (Hnewer ev').
Qed.

Lemma fleet_unique_tags : unique_tags (Dashboard.assets fleet).
Proof. unfold unique_tags. apply (bool_decide_unpack _). by vm_compute. Qed.

Lemma run_unique_tags_witness :
  unique_tags (Dashboard.assets fleet) ∧
  Dashboard.assets (run [office_scan; chair_scan; stray_scan; kitchen_scan] fleet)
  = [Dashboard.mark_seen kitchen_scan laptop;
     Dashboard.mark_seen chair_scan chair;
     projector].
Proof.
  split; [exact fleet_unique_tags|].
  exact (proj1 (run_unique_tags [office_scan; chair_scan; stray_scan; kitchen_scan]
                  fleet fleet_unique_tags)).
Defined.

(** ** A scanned asset under the status filters *)

(** X7. After a scan event with a known tag, the scanned asset is listed
    under the "active" filter with the event's timestamp and location; when
    tags are unique, no asset with the event's tag is listed under any other
    status filter (so it leaves the "missing" list). *)
Theorem scanned_asset_filtered (ev : ScanEvent.t) (st : Dashboard.State) :
  known_tag (ScanEvent.tag_id ev) (Dashboard.assets st) →
  let after := Dashboard.assets (Dashboard.handleScanEvent ev st) in
  (∃ a, a ∈ Dashboard.filteredAssets "active" after ∧
        Asset.tag_id a = ScanEvent.tag_id ev ∧
        Asset.last_seen a = Some (ScanEvent.timestamp ev) ∧
        Asset.last_location a = Some (ScanEvent.location ev)) ∧
  (unique_tags (Dashboard.assets st) →
   ∀ f b, f ≠ "all" → f ≠ "active" →
          b ∈ Dashboard.filteredAssets f after →
          Asset.tag_id b ≠ ScanEvent.tag_id ev).
Proof.
  intros Hknown after. subst after. split.
  - destruct (find_by_tag_known _ _ Hknown) as (i & a & Hfind).
    exists (Dashboard.mark_seen ev a).
    rewrite (filteredAssets_status "active") by discriminate.
    rewrite list_elem_of_filter.
    rewrite (handleScanEvent_assets_found _ _ _ _ Hfind).
    apply find_by_tag_Some in Hfind as (Hi & Htag & _).
    split_and!; try done.
    apply list_elem_of_lookup. exists i.
    apply list_lookup_insert_eq. by eapply lookup_lt_Some.
  - intros Huniq f b Hall Hactive Hin Htag.
    rewrite (filteredAssets_status f) in Hin by done.
    apply list_elem_of_filter in Hin as [Hstatus [j Hj]%list_elem_of_lookup].
    destruct (Dashboard.assets st !! j) as [a|] eqn:Ha.
    + rewrite (handleScanEvent_unique_lookup ev st j a Huniq Ha) in Hj.
      injection Hj as <-. case_decide as Hd.
      * simpl in Hstatus. by apply Hactive.
      * by apply Hd.
    + apply lookup_ge_None in Ha. apply lookup_lt_Some in Hj.
      rewrite <- (length_fmap identity), handleScanEvent_identity,
        length_fmap in Hj. lia.
Qed.

Lemma scanned_asset_filtered_witness :
  known_tag (ScanEvent.tag_id office_scan) (Dashboard.assets fleet) ∧
  ∃ a, a ∈ Dashboard.filteredAssets "active"
             (Dashboard.assets (Dashboard.handleScanEvent office_scan fleet)) ∧
       Asset.tag_id a = ScanEvent.tag_id office_scan ∧
       Asset.last_seen a = Some (ScanEvent.timestamp office_scan) ∧
       Asset.last_location a = Some (ScanEvent.location office_scan).
Proof.
  split; [exact office_scan_known|].
  exact (proj1 (scanned_asset_filtered office_scan fleet office_scan_known)).
Defined.

(** ** Loading the assets *)


Lemma truthy_string_nonempty s : Js.truthy_string (Some s) = true ↔ s ≠ "".
Proof.
  simpl. rewrite negb_true_iff. destruct (String.eqb_spec s ""); split; done.
Qed.



(** Without an earlier failure the same response brings up the cards. *)
Example loadAssets_first_load :
  DashboardPage.asset_panel
    (DashboardPage.loadAssets
       (DashboardPage.fetched (Dashboard.assets fleet)) fresh_page)
  = DashboardPage.AssetCards [laptop; chair; projector].
Proof. reflexivity. Qed.

(** ** Status badges *)

(** X9. The asset card and the asset detail page give the status badge the
    same class exactly for the statuses active, missing and idle; for any
    other status the card falls back to the bare "badge" while the detail
    page styles it as idle. *)
Theorem status_badge_classes_agree (status : string) :
  (AssetDetail.status_badge_class status = AssetCard.getStatusBadgeClass status
   ↔ status = "active" ∨ status = "missing" ∨ status = "idle") ∧
  (status ≠ "active" → status ≠ "missing" → status ≠ "idle" →
   AssetCard.getStatusBadgeClass status = "badge" ∧
   AssetDetail.status_badge_class status = "badge badge-idle").
Proof.
  unfold AssetDetail.status_badge_class, AssetCard.getStatusBadgeClass.
  repeat case_decide; subst; simpl; split;
    try (split; [intros _; auto | done]);
    try (intros; congruence).
  - split; [discriminate|]. intros [?|[?|?]]; congruence.
  - done.
Qed.

(** ** When the date library decides the output *)

Lemma format_or_library_free fallback pattern ts :
  (∀ (Date : Type) (parseISO : string → Date)
     (format : Date → string → Js.outcome string),
     Format.format_or parseISO format fallback pattern ts = Js.Returned fallback)
  ↔ ts = None ∨ ts = Some "".
Proof.
  split.
  - intros Hfree. apply truthy_string_false.
    destruct (Js.truthy_string ts) eqn:Htruthy; [|done].
    destruct ts as [s|]; [|done].
    specialize (Hfree unit (λ _, tt) throwing_format).
    unfold Format.format_or in Hfree. rewrite Htruthy in Hfree.
    discriminate Hfree.
  - intros Hfalsy%truthy_string_false Date parseISO format.
    by apply format_or_falsy.
Qed.

(** X10. Each of the four timestamp helpers ([formatTime], [formatDate],
    [formatDateTime], [formatLastSeen]) returns its fallback text for every
    behaviour of the date library if and only if the timestamp is null or
    empty; on any other string, malformed ones included, the result is
    whatever [format(parseISO(..))] returns or throws with the helper's
    pattern. *)
Theorem format_helpers_guard (timestamp : option string) :
  let falsy := timestamp = None ∨ timestamp = Some "" in
  ((∀ (Date : Type) (parseISO : string → Date) format,
      Format.formatTime parseISO format timestamp = Js.Returned "N/A") ↔ falsy) ∧
  ((∀ (Date : Type) (parseISO : string → Date) format,
      Format.formatDate parseISO format timestamp = Js.Returned "N/A") ↔ falsy) ∧
  ((∀ (Date : Type) (parseISO : string → Date) format,
      Format.formatDateTime parseISO format timestamp = Js.Returned "N/A") ↔ falsy) ∧
  ((∀ (Date : Type) (parseISO : string → Date) format,
      Format.formatLastSeen parseISO format timestamp = Js.Returned "Never") ↔ falsy) ∧
  (∀ (Date : Type) (parseISO : string → Date) format s,
     timestamp = Some s → s ≠ "" →
     Format.formatTime parseISO format timestamp
       = format (parseISO s) "h:mm:ss a" ∧
     Format.formatDate parseISO format timestamp
       = format (parseISO s) "MMM d" ∧
     Format.formatDateTime parseISO format timestamp
       = format (parseISO s) "PPpp" ∧
     Format.formatLastSeen parseISO format timestamp
       = format (parseISO s) "MMM d, yyyy h:mm a").
Proof.
  intros falsy. subst falsy. split_and!.
  - apply format_or_library_free.
  - apply format_or_library_free.
  - apply format_or_library_free.
  - apply format_or_library_free.
  - intros Date parseISO format s -> Hs.
    unfold Format.formatTime, Format.formatDate, Format.formatDateTime,
      Format.formatLastSeen.
    by rewrite !format_or_truthy.
Qed.

(** ** The title of a scan row *)

(** X11. Every row of the scan list has a non-empty title: the asset name
    when the event carries a non-empty one, and otherwise "Asset (tag)"
    built from the event's tag. *)
Theorem scan_row_title (event : ScanEvent.t) :
  ScanRow.title event ≠ "" ∧
  (∀ asset_name, ScanEvent.asset_name event = Some asset_name →
                 asset_name ≠ "" → ScanRow.title event = asset_name) ∧
  ((ScanEvent.asset_name event = None ∨ ScanEvent.asset_name event = Some "") →
   ScanRow.title event = "Asset (" ++ ScanEvent.tag_id event ++ ")").
Proof.
  unfold ScanRow.title. split_and!.
  - destruct (ScanEvent.asset_name event) as [n|] eqn:Hn; simpl; [|done].
    destruct (String.eqb_spec n ""); simpl; done.
  - intros n -> Hn. rewrite (proj2 (truthy_string_nonempty n) Hn). done.
  - intros Hfalsy%truthy_string_false. rewrite Hfalsy.
    by destruct (ScanEvent.asset_name event).
Qed.

(** ** Submitting the form *)


(** Wired as in the dashboard ([onScanCreated={handleScanEvent}]): an
    accepted manual scan updates the dashboard as the same event arriving on
    the socket does, and a rejected one leaves it alone. *)
Example submitScan_on_the_dashboard :
  (ManualScanForm.submitScan (λ _, ManualScanForm.ok office_scan)
     Dashboard.handleScanEvent (form_of "RF001" "Office") fleet).2
  = Dashboard.handleScanEvent office_scan fleet ∧
  (ManualScanForm.submitScan (λ _, ManualScanForm.failed "Not Found")
     Dashboard.handleScanEvent (form_of "RF999" "Lobby") fleet)
  = ({| ManualScanForm.tagId := "RF999";
        ManualScanForm.form_location := "Lobby";
        ManualScanForm.submitting := false;
        ManualScanForm.error := "Error creating scan: Not Found";
        ManualScanForm.success := "" |}, fleet).
Proof. done. Qed.
